(** * timestamped-lyrics: the lyrics client of [src/Client.ts]

    A shallow embedding of [LyricalClient] (candidate selection in
    [getLyrics], timestamp parsing in [parseSyncedLyrics]) and the
    properties its specification states about it.

    - JavaScript numbers are IEEE 754 binary64 values: [spec_float] with
      precision 53 and maximal exponent 1024, computed with the operations
      of the standard library's [SpecFloat].
    - JavaScript strings are sequences of UTF-16 code units: [list N].
    - A promise that rejects is a computation that throws; the only effect
      of the client is the HTTP request, recorded in a log of URLs. *)

From Stdlib Require Import ZArith NArith List Bool Lia String Ascii.
From Stdlib Require Import Floats.SpecFloat.
Import ListNotations.

Set Implicit Arguments.

(** ** The JavaScript values the client handles *)

Module Js.

(** *** Numbers *)

Definition number := spec_float.
Definition prec : Z := 53.
Definition emax : Z := 1024.

Definition NaN : number := S754_nan.
(** The double of an integer (exact below 2^53). *)
Definition ofZ (z : Z) : number := binary_normalize prec emax z 0 false.

Definition add : number -> number -> number := SFadd prec emax.
Definition sub : number -> number -> number := SFsub prec emax.
Definition mul : number -> number -> number := SFmul prec emax.
Definition div : number -> number -> number := SFdiv prec emax.
Definition Math_abs : number -> number := SFabs.
(** [x < y] and [x <= y] on numbers: false as soon as one side is NaN. *)
Definition lt : number -> number -> bool := SFltb.
Definition le : number -> number -> bool := SFleb.

Definition isNaN (x : number) : bool :=
  match x with S754_nan => true | _ => false end.
Definition isFinite (x : number) : bool :=
  match x with S754_zero _ | S754_finite _ _ _ => true | _ => false end.

(** The place of a number other than NaN in the order that [<]
    follows: sign class first, then exponent, then mantissa. *)
Definition rank (x : number) : Z * Z * Z :=
  match x with
  | S754_infinity true => (-2, 0, 0)
  | S754_finite true m e => (-1, - e, - Zpos m)
  | S754_zero _ | S754_nan => (0, 0, 0)
  | S754_finite false m e => (1, e, Zpos m)
  | S754_infinity false => (2, 0, 0)
  end%Z.

Definition rank_lt (a b : Z * Z * Z) : Prop :=
  let '(c1, e1, m1) := a in
  let '(c2, e2, m2) := b in
  (c1 < c2 \/ (c1 = c2 /\ (e1 < e2 \/ (e1 = e2 /\ m1 < m2))))%Z.

Definition rank_eq (a b : Z * Z * Z) : Prop :=
  let '(c1, e1, m1) := a in
  let '(c2, e2, m2) := b in
  (c1 = c2 /\ e1 = e2 /\ m1 = m2)%Z.

(** *** Strings *)

Definition char := N.
Definition jsstring := list char.

(** A string literal of the source, one code unit per ASCII character. *)
Fixpoint str (s : string) : jsstring :=
  match s with
  | EmptyString => []
  | String c s' => N_of_ascii c :: str s'
  end.

Definition LF : char := 10%N.
Definition CR : char := 13%N.
Definition SPACE : char := 32%N.

Fixpoint eqb (s t : jsstring) : bool :=
  match s, t with
  | [], [] => true
  | c :: s', d :: t' => N.eqb c d && eqb s' t'
  | _, _ => false
  end.

Definition isEmpty (s : jsstring) : bool :=
  match s with [] => true | _ => false end.

(** LineTerminator of ECMAScript: LF, CR, U+2028, U+2029. *)
Definition isLineTerminator (c : char) : bool :=
  (N.eqb c 10 || N.eqb c 13 || N.eqb c 8232 || N.eqb c 8233)%N.

(** WhiteSpace of ECMAScript: TAB, VT, FF, SP, NBSP, ZWNBSP and the
    Unicode space separators. *)
Definition isWhiteSpace (c : char) : bool :=
  (N.eqb c 9 || N.eqb c 11 || N.eqb c 12 || N.eqb c 32 || N.eqb c 160
   || N.eqb c 5760 || (N.leb 8192 c && N.leb c 8202)
   || N.eqb c 8239 || N.eqb c 8287 || N.eqb c 12288 || N.eqb c 65279)%N.

(** What [String.prototype.trim] strips: white space and line
    terminators. *)
Definition isTrimmed (c : char) : bool := isWhiteSpace c || isLineTerminator c.

Fixpoint trimStart (s : jsstring) : jsstring :=
  match s with
  | [] => []
  | c :: s' => if isTrimmed c then trimStart s' else s
  end.

Definition trimEnd (s : jsstring) : jsstring := rev (trimStart (rev s)).

Definition trim (s : jsstring) : jsstring := trimEnd (trimStart s).

(** [s.split(sep)] for a one-character separator: always at least one
    piece, and a piece for every separator. *)
Fixpoint split (sep : char) (s : jsstring) : list jsstring :=
  match s with
  | [] => [[]]
  | c :: s' =>
      if N.eqb c sep then [] :: split sep s'
      else match split sep s' with
           | piece :: pieces => (c :: piece) :: pieces
           | [] => [[c]]
           end
  end.

(** [s.includes(c)] for a one-character needle. *)
Definition includes (s : jsstring) (c : char) : bool := existsb (N.eqb c) s.

(** [s.replace(/c/g, d)] for single characters. *)
Definition replaceAll (c d : char) (s : jsstring) : jsstring :=
  map (fun x => if N.eqb x c then d else x) s.

(** *** Dynamically typed values, as far as an option field can hold
    them *)

Inductive value :=
| VUndefined
| VNull
| VBoolean (b : bool)
| VNumber (x : number)
| VString (s : jsstring)
| VObject.                  (* any object, array or function *)

Definition typeof (v : value) : jsstring :=
  match v with
  | VUndefined => str "undefined"
  | VNull => str "object"
  | VBoolean _ => str "boolean"
  | VNumber _ => str "number"
  | VString _ => str "string"
  | VObject => str "object"
  end.

(** ToBoolean on numbers: +0, -0 and NaN are falsy. *)
Definition truthyNumber (x : number) : bool :=
  match x with
  | S754_zero _ | S754_nan => false
  | _ => true
  end.

(** ToBoolean. *)
Definition truthy (v : value) : bool :=
  match v with
  | VUndefined | VNull => false
  | VBoolean b => b
  | VNumber x => truthyNumber x
  | VString s => negb (isEmpty s)
  | VObject => true
  end.

(** The numeric operand of [-].  The client subtracts [duration] only
    behind its [typeof] guard, so the coercion of other values is never
    exercised. *)
Definition asNumber (v : value) : number :=
  match v with VNumber x => x | _ => NaN end.

(** *** Exceptions *)

Inductive exn :=
| Error (message : jsstring)
| TypeError (message : jsstring)
| Rejection.   (* raised by node-fetch: transport failure, body not JSON *)

(** [arr.reduce(f)] without an initial value. *)
Definition reduce {A} (f : A -> A -> A) (arr : list A) : exn + A :=
  match arr with
  | [] => inl (TypeError (str "Reduce of empty array with no initial value"))
  | first :: others => inr (fold_left f others first)
  end.

End Js.

Import Js.

(** ** The types of [src/types] *)

Record LyricSearchResult := {
  id : number;
  name : jsstring;
  trackName : jsstring;
  artistName : jsstring;
  albumName : jsstring;
  duration : number;          (* in seconds *)
  instrumental : bool;
  plainLyrics : jsstring;     (* unformatted lyrics *)
  syncedLyrics : jsstring     (* lines of the form [mm:ss.xx] text *)
}.

(** [end] is a keyword of Rocq: the field is [end_]. *)
Record LyricLine := {
  start : number;             (* in seconds *)
  end_ : number;              (* in seconds *)
  text : jsstring
}.

Record QuerySongOptions := {
  qSyncedOnly : option bool
}.

(** [duration?: number] is a promise of the type checker only: the client
    tests [typeof duration] at run time, so the field holds any value. *)
Record GetLyricsOptions := {
  oDuration : value;
  oSyncedOnly : option bool
}.

(** The elements of the local array [startingLines]. *)
Module StartingLine.
Record t := { line : jsstring; start : number }.
End StartingLine.

(** ** The HTTP collaborator *)

(** The body of an answer, as far as the declared type of the source
    goes: [(await search.json()) as LyricSearchResult[]], with [null],
    which the source tests for.  A body that is JSON of another shape (a
    string, a number, an object, an array of something else) is outside
    that type and outside this model. *)
Inductive Body :=
| NotJson
| JsonNull
| JsonArray (items : list LyricSearchResult).

Record Response := { ok : bool; body : Body }.

(** What the lyrics server answers to a GET of a URL; [None] when the
    request itself fails. *)
Definition Network := jsstring -> option Response.

(** ** Computations: exceptions and the log of requested URLs *)

Definition M (A : Type) : Type := list jsstring -> (exn + A) * list jsstring.

Definition ret {A} (a : A) : M A := fun log => (inr a, log).
Definition throw {A} (e : exn) : M A := fun log => (inl e, log).
Definition bind {A B} (m : M A) (k : A -> M B) : M B :=
  fun log =>
    match m log with
    | (inl e, log') => (inl e, log')
    | (inr a, log') => k a log'
    end.
Definition lift {A} (r : exn + A) : M A := fun log => (r, log).

Notation "x <- m ;; k" := (bind m (fun x => k))
  (at level 61, m at next level, right associativity).

(** [await fetch(url, ...)]: the request is logged, then answered. *)
Definition fetch (net : Network) (url : jsstring) : M Response :=
  fun log =>
    match net url with
    | Some response => (inr response, log ++ [url])
    | None => (inl Rejection, log ++ [url])
    end.

(** [await search.json()] *)
Definition json (response : Response) : M (option (list LyricSearchResult)) :=
  match body response with
  | NotJson => throw Rejection
  | JsonNull => ret None
  | JsonArray items => ret (Some items)
  end.

(** ** [LyricalClient] *)

Module Client.

(** *** The timestamp pattern

    Written token by token, the regular expression of the source is
    ^  \[  (\d{2})  :  (\d{2} \. \d{2})  \]  ( . * )  $
    with three capture groups and no flags. *)

Definition isDigit (c : char) : bool := (N.leb 48 c && N.leb c 57)%N.

(** [line.match(...)]: the three captures, or [None] for [null].  The
    pattern has no flags: [^] and [$] are the ends of the string and [.]
    matches any code unit but a line terminator. *)
Definition regexMatch (line : jsstring)
  : option (jsstring * jsstring * jsstring) :=
  match line with
  | lb :: m1 :: m2 :: colon :: s1 :: s2 :: dot :: f1 :: f2 :: rb :: rest =>
      if (N.eqb lb 91 && isDigit m1 && isDigit m2 && N.eqb colon 58
          && isDigit s1 && isDigit s2 && N.eqb dot 46
          && isDigit f1 && isDigit f2 && N.eqb rb 93
          && forallb (fun c => negb (isLineTerminator c)) rest)%N
      then Some ([m1; m2], [s1; s2; dot; f1; f2], rest)
      else None
  | _ => None
  end.

(** The integer a string of decimal digits denotes. *)
Definition digitsValue (s : jsstring) : Z :=
  fold_left (fun acc c => (acc * 10 + (Z.of_N c - 48))%Z) s 0%Z.

(** [Number(s)] on a string of decimal digits. *)
Definition Number_ (s : jsstring) : number := ofZ (digitsValue s).

Fixpoint beforeDot (s : jsstring) : jsstring :=
  match s with
  | [] => []
  | c :: s' => if N.eqb c 46 then [] else c :: beforeDot s'
  end.

Fixpoint afterDot (s : jsstring) : jsstring :=
  match s with
  | [] => []
  | c :: s' => if N.eqb c 46 then s' else afterDot s'
  end.

(** [parseFloat(s)] on digits, a period, digits: the double nearest to
    the decimal.  The digits form an integer below 2^53 and the power of
    ten is exact, so the correctly rounded quotient is that double. *)
Definition parseFloat (s : jsstring) : number :=
  let int := beforeDot s in
  let frac := afterDot s in
  div (ofZ (digitsValue (int ++ frac)))
      (ofZ (10 ^ Z.of_nat (List.length frac))).

(** The source holds the four code units U+00F0 U+0178 U+017D U+00B5
    between the quotes (a musical note read in the wrong encoding). *)
Definition placeholder : jsstring := [240; 376; 381; 181]%N.

(** *** [querySongLyrics], [getLyrics] *)

(** [item.syncedLyrics && item.syncedLyrics.length > 0] *)
Definition hasSyncedLyrics (item : LyricSearchResult) : bool :=
  negb (isEmpty (syncedLyrics item))
  && (0 <? List.length (syncedLyrics item)).

Definition searchUrl (song artist : jsstring) : jsstring :=
  str "https://lrclib.net/api/search?track_name=" ++ song
    ++ str "&artist_name=" ++ artist.

Definition failedToFetch (song artist : jsstring) : exn :=
  Error (str "Failed to fetch lyrics for " ++ song ++ str " by " ++ artist).

(** The message of both [throw]s of [getLyrics] and of the one of
    [querySongLyrics] for an empty answer. *)
Definition noLyricsFound (song artist : jsstring) : exn :=
  Error (str "No lyrics found for " ++ song ++ str " by " ++ artist).

Definition mustBeNumber : exn := Error (str "songduration must be a number").

Definition noSyncedLyrics : exn :=
  Error (str "No synced lyrics available for this song").

Section Methods.

Variable net : Network.

Definition querySongLyrics (song artist : jsstring)
           (options : option QuerySongOptions)
  : M (list LyricSearchResult) :=
  let syncedOnly :=
    match options with
    | Some {| qSyncedOnly := Some b |} => b
    | _ => false
    end in
  search <- fetch net (searchUrl song artist) ;;
  if negb (ok search) then throw (failedToFetch song artist)
  else
    data <- json search ;;
    match data with
    | None => throw (noLyricsFound song artist)
    | Some data =>
        if Nat.eqb (List.length data) 0
        then throw (noLyricsFound song artist)
        else if (syncedOnly : bool)
             then ret (filter hasSyncedLyrics data)
             else ret data
    end.

(** The callback given to [reduce]. *)
Definition closer (duration_ : value) (prev curr : LyricSearchResult)
  : LyricSearchResult :=
  let prevDiff := Math_abs (sub (duration prev) (asNumber duration_)) in
  let currDiff := Math_abs (sub (duration curr) (asNumber duration_)) in
  if lt currDiff prevDiff then curr else prev.

Definition getLyrics (song artist : jsstring)
           (options : option GetLyricsOptions)
  : M LyricSearchResult :=
  let duration_ :=
    match options with Some o => oDuration o | None => VUndefined end in
  let syncedOnly :=
    match options with
    | Some {| oSyncedOnly := Some b |} => b
    | _ => false
    end in
  if truthy duration_ && negb (eqb (typeof duration_) (str "number"))
  then throw mustBeNumber
  else
    data <- querySongLyrics song artist None ;;
    if Nat.eqb (List.length data) 0
    then throw (noLyricsFound song artist)
    else
      let data :=
        if (syncedOnly : bool) then filter hasSyncedLyrics data else data in
      lyric <-
        (if truthy duration_ then
           closestLyric <- lift (reduce (closer duration_) data) ;;
           ret (Some closestLyric)        (* an object is truthy *)
         else if 0 <? List.length data then ret (nth_error data 0)
         else ret None) ;;
      match lyric with
      | None => throw (noLyricsFound song artist)
      | Some lyric => ret lyric
      end.

End Methods.

(** *** [parseSyncedLyrics] *)

(** The body of [for (const line of lyricalArray)]: the array
    [startingLines] after the iteration; [continue] leaves it as it
    is. *)
Definition scanLine (startingLines : list StartingLine.t) (line : jsstring)
  : list StartingLine.t :=
  if isEmpty (trim line) then startingLines
  else
    match regexMatch line with
    | None => startingLines
    | Some (match1, match2, match3) =>
        let start := add (mul (Number_ match1) (ofZ 60)) (parseFloat match2) in
        let text := trim match3 in
        let text := if isEmpty text then placeholder else text in
        let text :=
          if includes text LF then replaceAll LF SPACE text else text in
        startingLines
          ++ [{| StartingLine.line := text; StartingLine.start := start |}]
    end.

(** The body of [for (let i = 0; i < startingLines.length; i++)]: the
    array [lyricalLines] after iteration [i]. *)
Definition closeLine (startingLines : list StartingLine.t)
           (lyrics : LyricSearchResult)
           (lyricalLines : list LyricLine) (i : nat) : list LyricLine :=
  match nth_error startingLines i with
  | None => lyricalLines              (* not reached: i < length *)
  | Some currentLine =>
      let nextLine := nth_error startingLines (i + 1) in
      let start := StartingLine.start currentLine in
      let end_ :=
        match nextLine with
        | Some next => StartingLine.start next
        | None => duration lyrics
        end in
      lyricalLines
        ++ [{| start := start; end_ := end_;
               text := StartingLine.line currentLine |}]
  end.

Definition parseSyncedLyrics (lyrics : LyricSearchResult)
  : exn + list LyricLine :=
  let lyricalLines : list LyricLine := [] in
  if isEmpty (syncedLyrics lyrics)
     || Nat.eqb (List.length (syncedLyrics lyrics)) 0
  then inl noSyncedLyrics
  else
    let lyricalArray := split LF (syncedLyrics lyrics) in
    let startingLines := fold_left scanLine lyricalArray [] in
    inr (fold_left (closeLine startingLines lyrics)
                   (seq 0 (List.length startingLines)) lyricalLines).

(** *** [getLyricLines] *)

Definition getLyricLines (net : Network) (song artist : jsstring)
           (options : option GetLyricsOptions)
  : M (list LyricLine) :=
  let duration_ :=
    match options with Some o => oDuration o | None => VUndefined end in
  lyrics <- getLyrics net song artist
              (Some {| oDuration := duration_; oSyncedOnly := Some true |}) ;;
  lift (parseSyncedLyrics lyrics).

End Client.

(** ** The vocabulary of the specification *)

Module Spec.

Import Client.

(** *** Section 4.2: the line grammar and what a line emits *)

Definition digitVal (c : char) : Z := Z.of_N c - 48.

(** [TimestampLine line mm hs rest]: [line] reads [[MM:SS.ff]rest] with
    [MM] exactly two digits (value [mm]), [SS] exactly two digits, a
    literal period and exactly two digits [ff] ([SS.ff] is [hs]
    hundredths of a second), followed by [rest]. *)
Inductive TimestampLine : jsstring -> Z -> Z -> jsstring -> Prop :=
| TimestampLine_intro (m1 m2 s1 s2 f1 f2 : char) (rest : jsstring) :
    isDigit m1 = true -> isDigit m2 = true ->
    isDigit s1 = true -> isDigit s2 = true ->
    isDigit f1 = true -> isDigit f2 = true ->
    TimestampLine
      (str "[" ++ [m1; m2] ++ str ":" ++ [s1; s2] ++ str "." ++ [f1; f2]
         ++ str "]" ++ rest)
      (10 * digitVal m1 + digitVal m2)
      (1000 * digitVal s1 + 100 * digitVal s2 + 10 * digitVal f1 + digitVal f2)
      rest.

(** The same, with a [rest] free of line terminators (carriage return,
    U+2028, U+2029; a line feed cannot occur in a physical line). *)
Definition RecordedLine (line : jsstring) (mm hs : Z) (rest : jsstring)
  : Prop :=
  TimestampLine line mm hs rest
  /\ Forall (fun c => isLineTerminator c = false) rest.

(** [MM*60 + SS.ff] in double precision, [SS.ff] being the double
    nearest to the decimal. *)
Definition startTime (mm hs : Z) : number :=
  add (mul (ofZ mm) (ofZ 60)) (div (ofZ hs) (ofZ 100)).

(** The text of a line: the trimmed rest, or the placeholder. *)
Definition textOf (rest : jsstring) : jsstring :=
  match trim rest with
  | [] => placeholder
  | trimmed => trimmed
  end.

(** [Emits Matches lines out]: reading [lines] in order, the lines that
    match record their (start, text) pair in [out], the others are
    skipped. *)
Section Emission.
Variable Matches : jsstring -> Z -> Z -> jsstring -> Prop.

Inductive Emits : list jsstring -> list (number * jsstring) -> Prop :=
| Emits_nil : Emits [] []
| Emits_record line mm hs rest lines out :
    Matches line mm hs rest ->
    Emits lines out ->
    Emits (line :: lines) ((startTime mm hs, textOf rest) :: out)
| Emits_skip line lines out :
    (forall mm hs rest, ~ Matches line mm hs rest) ->
    Emits lines out ->
    Emits (line :: lines) out.
End Emission.

Definition startAndText (l : LyricLine) : number * jsstring :=
  (start l, text l).

(** A physical line the pattern of the source accepts. *)
Definition matching (line : jsstring) : bool :=
  match regexMatch line with Some _ => true | None => false end.

(** The physical lines of a record's synced lyrics. *)
Definition physicalLines (lyrics : LyricSearchResult) : list jsstring :=
  split LF (syncedLyrics lyrics).

(** The timestamps of the matching lines, in order of appearance. *)
Definition timestamps (lines : list jsstring) : list number :=
  flat_map (fun line =>
              match regexMatch line with
              | Some (mm, ssff, _) =>
                  [add (mul (Number_ mm) (ofZ 60)) (parseFloat ssff)]
              | None => []
              end) lines.

(** The texts of the matching lines, in order of appearance. *)
Definition texts (lines : list jsstring) : list jsstring :=
  flat_map (fun line =>
              match regexMatch line with
              | Some (_, _, rest) => [textOf rest]
              | None => []
              end) lines.

(** What the matching lines record, in order of appearance. *)
Definition recorded (lines : list jsstring) : list StartingLine.t :=
  flat_map (fun line =>
              match regexMatch line with
              | Some (mm, ssff, rest) =>
                  [{| StartingLine.line := textOf rest;
                      StartingLine.start :=
                        add (mul (Number_ mm) (ofZ 60)) (parseFloat ssff) |}]
              | None => []
              end) lines.

(** Each start is at most the next one. *)
Fixpoint nondecreasing (xs : list number) : bool :=
  match xs with
  | x :: (y :: _) as rest => le x y && nondecreasing rest
  | _ => true
  end.

(** End times derived from a list of recorded lines: each line ends
    where the next one starts, the last one at [duration]. *)
Fixpoint attachEnds (recorded : list StartingLine.t) (duration_ : number)
  : list LyricLine :=
  match recorded with
  | [] => []
  | current :: rest =>
      {| start := StartingLine.start current;
         end_ := match rest with
                 | next :: _ => StartingLine.start next
                 | [] => duration_
                 end;
         text := StartingLine.line current |}
        :: attachEnds rest duration_
  end.

(** *** Section 4.1: selection *)

(** An optional target duration as the option field holds it. *)
Definition provided (targetDuration : option number) : value :=
  match targetDuration with
  | Some t => VNumber t
  | None => VUndefined
  end.

(** The options of a call; [syncedOnly] may be left out. *)
Definition options (targetDuration : option number) (syncedOnly : option bool)
  : option GetLyricsOptions :=
  Some {| oDuration := provided targetDuration; oSyncedOnly := syncedOnly |}.

(** The guard on [duration] lets through the values that are falsy or
    numbers. *)
Definition passesGuard (d : value) : Prop :=
  truthy d && negb (eqb (typeof d) (str "number")) = false.

(** The candidates left by the [syncedOnly] filter. *)
Definition eligible (syncedOnly : option bool)
           (candidates : list LyricSearchResult) : list LyricSearchResult :=
  match syncedOnly with
  | Some true => filter (fun r => negb (isEmpty (syncedLyrics r))) candidates
  | _ => candidates
  end.

(** The server answers the search with the array [candidates]. *)
Definition Answers (net : Network) (song artist : jsstring)
           (candidates : list LyricSearchResult) : Prop :=
  net (searchUrl song artist)
  = Some {| ok := true; body := JsonArray candidates |}.

(** [abs(record.duration - targetDuration)] *)
Definition distance (t : number) (r : LyricSearchResult) : number :=
  Math_abs (sub (duration r) t).

(** [Closest t candidates r]: [r] stands in [candidates] at a place where
    every record before it is strictly farther from [t] and no record
    after it is nearer: [r] minimizes the distance and is the first to
    do so. *)
Definition Closest (t : number) (candidates : list LyricSearchResult)
           (r : LyricSearchResult) : Prop :=
  exists before after,
    candidates = before ++ r :: after
    /\ (forall x, In x before -> lt (distance t r) (distance t x) = true)
    /\ (forall x, In x after -> le (distance t r) (distance t x) = true).

(** *** Records and servers for the scenarios *)

Definition record (duration_ : number) (synced : jsstring)
  : LyricSearchResult :=
  {| id := ofZ 1; name := str "name"; trackName := str "track";
     artistName := str "artist"; albumName := str "album";
     duration := duration_; instrumental := false;
     plainLyrics := str "plain"; syncedLyrics := synced |}.

Definition serving (candidates : list LyricSearchResult) : Network :=
  fun _ => Some {| ok := true; body := JsonArray candidates |}.

(** The doubles 1.5 = 3 * 2^51 * 2^-52 and 3 = 3 * 2^51 * 2^-51. *)
Definition seconds_1_5 : number := S754_finite false 6755399441055744 (-52).
Definition seconds_3 : number := S754_finite false 6755399441055744 (-51).

Definition helloWorld : LyricSearchResult :=
  record (ofZ 10) (str "[00:01.50]Hello" ++ [LF] ++ str "[00:03.00]World").

Definition helloWorldLines : list LyricLine :=
  [ {| start := seconds_1_5; end_ := seconds_3; text := str "Hello" |};
    {| start := seconds_3; end_ := ofZ 10; text := str "World" |} ].

(** A line that ends in a carriage return, as in a text with CR LF line
    ends. *)
Definition helloCR : LyricSearchResult :=
  record (ofZ 10) (str "[00:01.50]Hello" ++ [CR]).

(** Two lines whose timestamps go backwards. *)
Definition backwards : LyricSearchResult :=
  record (ofZ 10) (str "[00:03.00]late" ++ [LF] ++ str "[00:01.00]early").

(** A track that is declared shorter than its only timestamp. *)
Definition shortTrack : LyricSearchResult :=
  record (ofZ 1) (str "[00:03.00]late").


Definition noTimestamps : LyricSearchResult :=
  record (ofZ 10) (str "hello" ++ [LF] ++ str "world").

(** Candidates of 200, 260 and 300 seconds. *)
Definition threeCandidates : list LyricSearchResult :=
  [ record (ofZ 200) (str "[00:01.00]a");
    record (ofZ 260) (str "[00:01.00]b");
    record (ofZ 300) (str "[00:01.00]c") ].

(** The nearer candidate comes second. *)
Definition twoCandidates : list LyricSearchResult :=
  [ record (ofZ 260) (str "[00:01.00]b");
    record (ofZ 200) (str "[00:01.00]a") ].

(** One candidate, without synced lyrics. *)
Definition unsynced : list LyricSearchResult := [ record (ofZ 260) [] ].

Definition reduceOfEmptyArray : exn :=
  TypeError (str "Reduce of empty array with no initial value").

(** The lines of a result, or none when parsing throws. *)
Definition linesOf (result : exn + list LyricLine) : list LyricLine :=
  match result with inr lines => lines | inl _ => [] end.

End Spec.

(** ** Vocabulary for the calls as a whole *)

Module Calls.

Import Client Spec.

(** The two fields [getLyrics] reads from its options, with what it
    takes when the options or a field are left out. *)
Definition durationOf (options : option GetLyricsOptions) : value :=
  match options with Some o => oDuration o | None => VUndefined end.

Definition syncedOnlyOf (options : option GetLyricsOptions) : option bool :=
  match options with Some o => oSyncedOnly o | None => None end.

(** The field [querySongLyrics] reads from its options. *)
Definition wanted (options : option QuerySongOptions) : option bool :=
  match options with Some o => qSyncedOnly o | None => None end.

(** The test of the first [if] of [getLyrics]. *)
Definition rejected (d : value) : bool :=
  truthy d && negb (eqb (typeof d) (str "number")).

(** The options [getLyricLines] hands to [getLyrics]. *)
Definition forced (options : option GetLyricsOptions)
  : option GetLyricsOptions :=
  Some {| oDuration := durationOf options; oSyncedOnly := Some true |}.

(** A record with another synced-lyrics text. *)
Definition withSynced (r : LyricSearchResult) (synced : jsstring)
  : LyricSearchResult :=
  {| id := id r; name := name r; trackName := trackName r;
     artistName := artistName r; albumName := albumName r;
     duration := duration r; instrumental := instrumental r;
     plainLyrics := plainLyrics r; syncedLyrics := synced |}.

(** A line without carriage return, line feed, U+2028 and U+2029. *)
Definition terminatorFree (line : jsstring) : bool :=
  forallb (fun c => negb (isLineTerminator c)) line.

(** The number of line feeds of a text. *)
Definition lineFeeds (s : jsstring) : nat :=
  List.length (filter (N.eqb LF) s).

(** Each number is below the next one, and the last one below [d]. *)
Fixpoint closesBefore (xs : list number) (d : number) : bool :=
  match xs with
  | [] => true
  | x :: rest =>
      match rest with
      | [] => lt x d
      | y :: _ => lt x y && closesBefore rest d
      end
  end.

(** A number that is +0, positive and finite, or +Infinity. *)
Definition positiveOrZero (x : number) : bool :=
  match x with
  | S754_zero false | S754_infinity false | S754_finite false _ _ => true
  | _ => false
  end.

(** The separator the search URL puts between title and artist. *)
Definition artistKey : jsstring := str "&artist_name=".

(** Servers for the scenarios: none at all, one that answers with an
    error status, one that answers [null]. *)
Definition offline : Network := fun _ => None.

Definition refusing : Network :=
  fun _ => Some {| ok := false; body := JsonArray threeCandidates |}.

Definition answeringNull : Network :=
  fun _ => Some {| ok := true; body := JsonNull |}.

(** Candidates with and without synced lyrics. *)
Definition mixedCandidates : list LyricSearchResult :=
  [ record (ofZ 200) []; record (ofZ 260) (str "[00:01.00]b");
    record (ofZ 300) [] ].


End Calls.

(** * Properties *)

(** ** Strings *)

Module StringFacts.

Definition kept (c : char) : bool := negb (isTrimmed c).

Lemma trimStart_kept (s : jsstring) :
  filter kept (trimStart s) = filter kept s.
Proof.
  induction s as [|c s IH]; [reflexivity|].
  cbn [trimStart]. destruct (isTrimmed c) eqn:E; [|reflexivity].
  cbn [filter]. unfold kept at 2. rewrite E. exact IH.
Qed.

Lemma trim_kept (s : jsstring) : filter kept (trim s) = filter kept s.
Proof.
  unfold trim, trimEnd.
  rewrite filter_rev, trimStart_kept, filter_rev, rev_involutive.
  apply trimStart_kept.
Qed.

Lemma trimStart_In (c : char) (s : jsstring) : In c (trimStart s) -> In c s.
Proof.
  induction s as [|d s IH]; simpl; [tauto|].
  destruct (isTrimmed d); simpl; tauto.
Qed.

Lemma trim_In (c : char) (s : jsstring) : In c (trim s) -> In c s.
Proof.
  unfold trim, trimEnd. intros H.
  apply trimStart_In, in_rev, trimStart_In, in_rev. exact H.
Qed.

(** A string holding a character that [trim] does not strip does not
    trim to the empty string. *)
Lemma trim_nonempty (c : char) (s : jsstring) :
  In c s -> isTrimmed c = false -> trim s <> [].
Proof.
  intros Hin Hc Hnil.
  assert (In c (filter kept s)) as H.
  { apply filter_In. split; [exact Hin|]. unfold kept. now rewrite Hc. }
  rewrite <- trim_kept, Hnil in H. exact H.
Qed.

Lemma includes_false (s : jsstring) (c : char) :
  ~ In c s -> includes s c = false.
Proof.
  intros H. unfold includes.
  destruct (existsb (N.eqb c) s) eqn:E; [|reflexivity].
  apply existsb_exists in E. destruct E as [x [Hx Heq]].
  apply N.eqb_eq in Heq. subst x. contradiction.
Qed.

Lemma split_nonempty (sep : char) (s : jsstring) : split sep s <> [].
Proof.
  destruct s as [|c s]; simpl; [discriminate|].
  destruct (N.eqb c sep); [discriminate|].
  destruct (split sep s); discriminate.
Qed.

Lemma isDigit_range (c : char) : Client.isDigit c = true <-> (48 <= c <= 57)%N.
Proof.
  unfold Client.isDigit. rewrite andb_true_iff, !N.leb_le. tauto.
Qed.

End StringFacts.

(** ** Numbers *)

Module NumberFacts.

(** *** The comparisons follow the rank *)

Ltac compare_ranks :=
  repeat match goal with
         | |- context [Z.compare ?a ?b] => destruct (Z.compare_spec a b)
         | |- context [Pos.compare_cont Eq ?a ?b] =>
             change (Pos.compare_cont Eq a b) with (Pos.compare a b);
             destruct (Pos.compare_spec a b)
         end;
  cbn; split; intros; try discriminate; try reflexivity; try lia.

Lemma lt_rank (x y : number) :
  isNaN x = false -> isNaN y = false ->
  (lt x y = true <-> rank_lt (rank x) (rank y)).
Proof.
  unfold lt, SFltb.
  destruct x as [sx|sx| |sx mx ex], y as [sy|sy| |sy my ey];
    intros Hx Hy; try discriminate;
    try destruct sx; try destruct sy; cbn; compare_ranks.
Qed.

Lemma le_rank (x y : number) :
  isNaN x = false -> isNaN y = false ->
  (le x y = true <-> rank_lt (rank x) (rank y) \/ rank_eq (rank x) (rank y)).
Proof.
  unfold le, SFleb.
  destruct x as [sx|sx| |sx mx ex], y as [sy|sy| |sy my ey];
    intros Hx Hy; try discriminate;
    try destruct sx; try destruct sy; cbn; compare_ranks.
Qed.

Lemma lt_numbers (x y : number) :
  lt x y = true -> isNaN x = false /\ isNaN y = false.
Proof.
  unfold lt, SFltb. destruct x, y; cbn; intros H; try discriminate; now split.
Qed.

Lemma le_numbers (x y : number) :
  le x y = true -> isNaN x = false /\ isNaN y = false.
Proof.
  unfold le, SFleb. destruct x, y; cbn; intros H; try discriminate; now split.
Qed.

Ltac by_rank :=
  repeat match goal with
         | H : lt _ _ = true |- _ =>
             let Hn := fresh in
             pose proof (lt_numbers _ _ H) as [? ?];
             apply lt_rank in H; [|assumption|assumption]
         | H : le _ _ = true |- _ =>
             pose proof (le_numbers _ _ H) as [? ?];
             apply le_rank in H; [|assumption|assumption]
         end.

Lemma lt_trans (x y z : number) :
  lt x y = true -> lt y z = true -> lt x z = true.
Proof.
  intros Hxy Hyz. by_rank. apply lt_rank; try assumption.
  destruct (rank x) as [[? ?] ?], (rank y) as [[? ?] ?],
    (rank z) as [[? ?] ?]. unfold rank_lt in *. lia.
Qed.

Lemma lt_le_trans (x y z : number) :
  lt x y = true -> le y z = true -> lt x z = true.
Proof.
  intros Hxy Hyz. by_rank. apply lt_rank; try assumption.
  destruct (rank x) as [[? ?] ?], (rank y) as [[? ?] ?],
    (rank z) as [[? ?] ?]. unfold rank_lt, rank_eq in *. lia.
Qed.

(** Two numbers are always comparable. *)
Lemma not_lt_le (x y : number) :
  isNaN x = false -> isNaN y = false -> lt x y = false -> le y x = true.
Proof.
  intros Hx Hy Hlt. apply le_rank; try assumption.
  assert (~ rank_lt (rank x) (rank y)) as Hn.
  { intros H. apply lt_rank in H; try assumption. congruence. }
  destruct (rank x) as [[? ?] ?], (rank y) as [[? ?] ?].
  unfold rank_lt, rank_eq in *. lia.
Qed.

(** *** Rounding never produces NaN *)

Section Rounding.

Variables prec emax : Z.

Lemma shr_1_nonneg (mrs : shr_record) :
  (0 <= shr_m mrs)%Z -> (0 <= shr_m (shr_1 mrs))%Z.
Proof.
  destruct mrs as [m r s]. destruct m as [|p|p]; cbn; intros H;
    try lia; destruct p; cbn; lia.
Qed.

Lemma iter_pos_nonneg (p : positive) (mrs : shr_record) :
  (0 <= shr_m mrs)%Z -> (0 <= shr_m (iter_pos shr_1 p mrs))%Z.
Proof.
  revert mrs. induction p as [p IH|p IH|]; intros mrs H; cbn.
  - apply IH, IH, shr_1_nonneg, H.
  - apply IH, IH, H.
  - apply shr_1_nonneg, H.
Qed.

Lemma shr_fexp_nonneg (m e : Z) (l : location) :
  (0 <= m)%Z -> (0 <= shr_m (fst (shr_fexp prec emax m e l)))%Z.
Proof.
  intros H. unfold shr_fexp, shr.
  assert (shr_m (shr_record_of_loc m l) = m) as Hm
      by (destruct l as [|[]]; reflexivity).
  destruct (_ - e)%Z; cbn [fst]; try (rewrite Hm; exact H).
  apply iter_pos_nonneg. rewrite Hm. exact H.
Qed.

Lemma round_nearest_even_nonneg (m : Z) (l : location) :
  (0 <= m)%Z -> (0 <= round_nearest_even m l)%Z.
Proof.
  intros H. destruct l as [|[]]; cbn; try destruct (Z.even m); lia.
Qed.

Lemma binary_round_aux_number (sx : bool) (mx ex : Z) (lx : location) :
  (0 <= mx)%Z -> isNaN (binary_round_aux prec emax sx mx ex lx) = false.
Proof.
  intros H. unfold binary_round_aux.
  pose proof (shr_fexp_nonneg ex lx H) as H1.
  destruct (shr_fexp prec emax mx ex lx) as [mrs' e']. cbn [fst] in H1.
  pose proof (round_nearest_even_nonneg (loc_of_shr_record mrs') H1) as H2.
  pose proof (shr_fexp_nonneg e' loc_Exact H2) as H3.
  destruct (shr_fexp prec emax _ e' loc_Exact) as [mrs'' e''].
  cbn [fst] in H3.
  destruct (shr_m mrs''); [reflexivity| |lia].
  now destruct (Z.leb _ _).
Qed.

Lemma binary_normalize_number (m e : Z) (szero : bool) :
  isNaN (binary_normalize prec emax m e szero) = false.
Proof.
  destruct m as [|p|p]; cbn; [reflexivity| |]; unfold binary_round;
    destruct (shl_align _ _ _); now apply binary_round_aux_number.
Qed.

(** Subtracting a finite number from a number gives a number. *)
Lemma SFsub_number (x t : number) :
  isNaN x = false -> isFinite t = true ->
  isNaN (SFsub prec emax x t) = false.
Proof.
  destruct x as [sx|sx| |sx mx ex], t as [st|st| |st mt et];
    intros Hx Ht; try discriminate; cbn;
    try reflexivity; try (destruct sx, st; reflexivity).
  apply binary_normalize_number.
Qed.

End Rounding.

Lemma abs_number (x : number) : isNaN (Math_abs x) = isNaN x.
Proof. now destruct x. Qed.

End NumberFacts.

(** ** The parser *)

Module Parsing.

Import Client Spec StringFacts.

(** *** The pattern *)

Lemma regexMatch_Some (line a b rest : jsstring) :
  regexMatch line = Some (a, b, rest) ->
  exists m1 m2 s1 s2 f1 f2,
    (isDigit m1 = true /\ isDigit m2 = true /\ isDigit s1 = true
     /\ isDigit s2 = true /\ isDigit f1 = true /\ isDigit f2 = true)
    /\ line = (91 :: m1 :: m2 :: 58 :: s1 :: s2 :: 46 :: f1 :: f2 :: 93
               :: rest)%N
    /\ a = [m1; m2] /\ b = [s1; s2; 46%N; f1; f2]
    /\ forallb (fun c => negb (isLineTerminator c)) rest = true.
Proof.
  unfold regexMatch. intros H.
  do 10 (destruct line as [|? line]; [discriminate|]).
  match type of H with
  | (if ?c then _ else _) = _ => destruct c eqn:E
  end; [|discriminate].
  injection H as <- <- <-.
  repeat rewrite andb_true_iff in E. decompose [and] E.
  repeat match goal with
         | H : N.eqb _ _ = true |- _ => apply N.eqb_eq in H; subst
         end.
  do 6 eexists. repeat split; eassumption.
Qed.

Lemma regexMatch_shape (m1 m2 s1 s2 f1 f2 : char) (rest : jsstring) :
  isDigit m1 = true -> isDigit m2 = true -> isDigit s1 = true ->
  isDigit s2 = true -> isDigit f1 = true -> isDigit f2 = true ->
  forallb (fun c => negb (isLineTerminator c)) rest = true ->
  regexMatch
    (91 :: m1 :: m2 :: 58 :: s1 :: s2 :: 46 :: f1 :: f2 :: 93 :: rest)%N
  = Some ([m1; m2], [s1; s2; 46%N; f1; f2], rest).
Proof.
  intros H1 H2 H3 H4 H5 H6 Hrest. unfold regexMatch.
  rewrite H1, H2, H3, H4, H5, H6, Hrest. reflexivity.
Qed.

Lemma digit_not_dot (c : char) : isDigit c = true -> N.eqb c 46 = false.
Proof.
  intros H. apply isDigit_range in H. apply N.eqb_neq. lia.
Qed.

(** [parseFloat] on the decimals 02.30, 00.10 and 59.99 gives the doubles
    0x4002666666666666, 0x3FB999999999999A and 0x404DFEB851EB851F. *)
Example parseFloat_nearest_double :
  parseFloat (str "02.30") = S754_finite false 5179139571476070 (-51)
  /\ parseFloat (str "00.10") = S754_finite false 7205759403792794 (-56)
  /\ parseFloat (str "59.99") = S754_finite false 8442841926436127 (-47).
Proof. repeat split; vm_compute; reflexivity. Qed.

(** A line feed ends a physical line; a carriage return before it stays
    in the line, and the pattern then rejects the line. *)
Example pattern_rejects_carriage_return :
  split LF (str "[00:01.50]Hello" ++ [CR; LF] ++ str "[00:03.00]World")
  = [str "[00:01.50]Hello" ++ [CR]; str "[00:03.00]World"]
  /\ regexMatch (str "[00:01.50]Hello" ++ [CR]) = None
  /\ regexMatch (str "[00:03.00]World")
     = Some (str "00", str "03.00", str "World").
Proof. repeat split; vm_compute; reflexivity. Qed.

(** The start time the source computes from the two captures is
    [MM*60 + SS.ff]. *)
Lemma start_of_captures (m1 m2 s1 s2 f1 f2 : char) :
  isDigit s1 = true -> isDigit s2 = true ->
  add (mul (Number_ [m1; m2]) (ofZ 60)) (parseFloat [s1; s2; 46%N; f1; f2])
  = startTime (10 * digitVal m1 + digitVal m2)
              (1000 * digitVal s1 + 100 * digitVal s2
               + 10 * digitVal f1 + digitVal f2).
Proof.
  intros Hs1 Hs2. unfold startTime, Number_, parseFloat.
  cbn [beforeDot afterDot].
  rewrite (@digit_not_dot s1 Hs1), (@digit_not_dot s2 Hs2).
  rewrite N.eqb_refl. cbn [app List.length digitsValue fold_left].
  unfold digitVal. do 3 f_equal; f_equal; lia.
Qed.

Lemma forallb_no_terminator (rest : jsstring) :
  forallb (fun c => negb (isLineTerminator c)) rest = true
  <-> Forall (fun c => isLineTerminator c = false) rest.
Proof.
  rewrite forallb_forall, Forall_forall.
  split; intros H c Hc; specialize (H c Hc);
    destruct (isLineTerminator c); simpl in *; congruence.
Qed.

(** A line the pattern accepts is never blank: the test for blank lines
    skips nothing the pattern would have accepted. *)
Lemma matched_not_blank (line : jsstring) :
  matching line = true -> isEmpty (trim line) = false.
Proof.
  unfold matching. destruct (regexMatch line) as [[[a b] rest]|] eqn:E;
    [intros _|discriminate].
  apply regexMatch_Some in E.
  destruct E as (m1 & m2 & s1 & s2 & f1 & f2 & _ & -> & _).
  destruct (trim _) eqn:T; [|reflexivity].
  exfalso. revert T. apply (@trim_nonempty 91%N); [left|]; reflexivity.
Qed.

(** *** The first loop *)

Lemma textOf_no_LF (rest : jsstring) :
  forallb (fun c => negb (isLineTerminator c)) rest = true ->
  includes (textOf rest) LF = false.
Proof.
  intros H. unfold textOf. destruct (trim rest) as [|c t] eqn:T;
    [reflexivity|].
  apply includes_false. intros Hin. rewrite <- T in Hin.
  apply trim_In in Hin. rewrite forallb_forall in H.
  specialize (H LF Hin). discriminate.
Qed.

Lemma scanLine_recorded (acc : list StartingLine.t) (line : jsstring) :
  scanLine acc line = acc ++ recorded [line].
Proof.
  unfold scanLine, recorded. cbn [flat_map]. rewrite app_nil_r.
  destruct (regexMatch line) as [[[mm ssff] rest]|] eqn:E.
  - rewrite matched_not_blank by (unfold matching; now rewrite E).
    apply regexMatch_Some in E.
    destruct E as (m1 & m2 & s1 & s2 & f1 & f2 & _ & _ & _ & _ & Hrest).
    pose proof (textOf_no_LF _ Hrest) as Hno. unfold textOf in *.
    destruct (trim rest) as [|c t]; cbn [isEmpty]; rewrite Hno; reflexivity.
  - rewrite app_nil_r. destruct (isEmpty (trim line)); reflexivity.
Qed.

Lemma recorded_cons (line : jsstring) (lines : list jsstring) :
  recorded (line :: lines) = recorded [line] ++ recorded lines.
Proof.
  unfold recorded. cbn [flat_map]. now rewrite app_nil_r.
Qed.

Lemma scan_all (lines : list jsstring) (acc : list StartingLine.t) :
  fold_left scanLine lines acc = acc ++ recorded lines.
Proof.
  revert acc. induction lines as [|line lines IH]; intros acc.
  - simpl. now rewrite app_nil_r.
  - cbn [fold_left]. rewrite IH, scanLine_recorded, (recorded_cons line lines).
    symmetry. apply app_assoc.
Qed.

(** *** The second loop *)

Lemma close_all (lyrics : LyricSearchResult)
      (rest before : list StartingLine.t) (acc : list LyricLine) :
  fold_left (closeLine (before ++ rest) lyrics)
            (seq (List.length before) (List.length rest)) acc
  = acc ++ attachEnds rest (duration lyrics).
Proof.
  revert before acc.
  induction rest as [|current rest IH]; intros before acc.
  - simpl. now rewrite app_nil_r.
  - cbn [List.length seq fold_left attachEnds].
    unfold closeLine at 2.
    rewrite nth_error_app2 by lia. rewrite Nat.sub_diag. cbn [nth_error].
    rewrite nth_error_app2 by lia.
    replace (List.length before + 1 - List.length before) with 1 by lia.
    cbn [nth_error].
    specialize (IH (before ++ [current])).
    rewrite <- app_assoc in IH. cbn [app] in IH.
    rewrite length_app in IH. cbn [List.length] in IH.
    rewrite Nat.add_1_r in IH. rewrite IH. rewrite <- app_assoc.
    destruct rest; reflexivity.
Qed.

(** *** [parseSyncedLyrics] as a whole *)

Lemma parse_unfold (lyrics : LyricSearchResult) :
  parseSyncedLyrics lyrics
  = match syncedLyrics lyrics with
    | [] => inl noSyncedLyrics
    | _ :: _ =>
        inr (attachEnds (recorded (physicalLines lyrics)) (duration lyrics))
    end.
Proof.
  unfold parseSyncedLyrics, physicalLines.
  destruct (syncedLyrics lyrics) as [|c s] eqn:E; [reflexivity|].
  cbn [isEmpty List.length Nat.eqb orb].
  rewrite scan_all. cbn [app].
  f_equal. exact (close_all lyrics (recorded (split LF (c :: s))) [] []).
Qed.

(** *** What the recorded lines carry *)

Lemma attachEnds_length (l : list StartingLine.t) (d : number) :
  List.length (attachEnds l d) = List.length l.
Proof. induction l; simpl; congruence. Qed.

Lemma attachEnds_start (l : list StartingLine.t) (d : number) :
  map start (attachEnds l d) = map StartingLine.start l.
Proof. induction l; simpl; congruence. Qed.

Lemma attachEnds_text (l : list StartingLine.t) (d : number) :
  map text (attachEnds l d) = map StartingLine.line l.
Proof. induction l; simpl; congruence. Qed.

Lemma attachEnds_next (l : list StartingLine.t) (d : number) (i : nat)
      (a b : LyricLine) :
  nth_error (attachEnds l d) i = Some a ->
  nth_error (attachEnds l d) (S i) = Some b ->
  end_ a = start b.
Proof.
  revert i. induction l as [|x l IH]; intros i Ha Hb.
  - destruct i; discriminate.
  - destruct i as [|i].
    + cbn in Ha, Hb. injection Ha as <-. cbn [end_].
      destruct l as [|y l]; [discriminate|].
      cbn in Hb. now injection Hb as <-.
    + cbn [attachEnds nth_error] in Ha, Hb. exact (IH i Ha Hb).
Qed.

Lemma attachEnds_last (l : list StartingLine.t) (d : number) (z : LyricLine) :
  nth_error (attachEnds l d) (List.length l - 1) = Some z -> end_ z = d.
Proof.
  induction l as [|x l IH]; [discriminate|].
  destruct l as [|y l].
  - cbn. intros H. now injection H as <-.
  - replace (List.length (x :: y :: l) - 1)
      with (S (List.length (y :: l) - 1)) by (simpl; lia).
    exact IH.
Qed.

Lemma recorded_start (lines : list jsstring) :
  map StartingLine.start (recorded lines) = timestamps lines.
Proof.
  induction lines as [|line lines IH]; [reflexivity|].
  rewrite (recorded_cons line lines), map_app, IH.
  unfold recorded, timestamps. cbn [flat_map]. rewrite app_nil_r.
  now destruct (regexMatch line) as [[[mm ssff] rest]|].
Qed.

Lemma recorded_text (lines : list jsstring) :
  map StartingLine.line (recorded lines) = texts lines.
Proof.
  induction lines as [|line lines IH]; [reflexivity|].
  rewrite (recorded_cons line lines), map_app, IH.
  unfold recorded, texts. cbn [flat_map]. rewrite app_nil_r.
  now destruct (regexMatch line) as [[[mm ssff] rest]|].
Qed.

Lemma recorded_length (lines : list jsstring) :
  List.length (recorded lines) = List.length (filter matching lines).
Proof.
  induction lines as [|line lines IH]; [reflexivity|].
  rewrite (recorded_cons line lines), length_app, IH.
  unfold recorded, matching. cbn [flat_map filter]. rewrite app_nil_r.
  now destruct (regexMatch line) as [[[mm ssff] rest]|].
Qed.



(** The lines the pattern accepts are the lines of the grammar whose
    rest holds no line terminator. *)
Lemma recorded_emits (lines : list jsstring) :
  Emits RecordedLine lines
        (map (fun s => (StartingLine.start s, StartingLine.line s))
             (recorded lines)).
Proof.
  induction lines as [|line lines IH]; [constructor|].
  rewrite (recorded_cons line lines), map_app.
  unfold recorded at 1. cbn [flat_map]. rewrite app_nil_r.
  destruct (regexMatch line) as [[[mm ssff] rest]|] eqn:E.
  - apply regexMatch_Some in E.
    destruct E as (m1 & m2 & s1 & s2 & f1 & f2 & Hd & -> & -> & -> & Hrest).
    destruct Hd as (H1 & H2 & H3 & H4 & H5 & H6).
    cbn [map app StartingLine.start StartingLine.line].
    rewrite (@start_of_captures m1 m2 s1 s2 f1 f2 H3 H4).
    apply Emits_record; [|exact IH].
    split; [|now apply forallb_no_terminator].
    exact (TimestampLine_intro m1 m2 s1 s2 f1 f2 rest H1 H2 H3 H4 H5 H6).
  - cbn [map app]. apply Emits_skip; [|exact IH].
    intros mm hs rest [Ht Hrest]. apply forallb_no_terminator in Hrest.
    inversion Ht as [m1 m2 s1 s2 f1 f2 rest' H1 H2 H3 H4 H5 H6 Hline]. subst.
    cbn in E. unfold regexMatch in E.
    rewrite H1, H2, H3, H4, H5, H6, Hrest in E. discriminate.
Qed.

Lemma attachEnds_startAndText (l : list StartingLine.t) (d : number) :
  map startAndText (attachEnds l d)
  = map (fun s => (StartingLine.start s, StartingLine.line s)) l.
Proof.
  induction l as [|x l IH]; [reflexivity|].
  cbn [attachEnds map]. now rewrite IH.
Qed.

Lemma parse_inr (lyrics : LyricSearchResult) (out : list LyricLine) :
  parseSyncedLyrics lyrics = inr out ->
  syncedLyrics lyrics <> []
  /\ out = attachEnds (recorded (physicalLines lyrics)) (duration lyrics).
Proof.
  rewrite parse_unfold. destruct (syncedLyrics lyrics); [discriminate|].
  intros H. injection H as <-. split; [discriminate|reflexivity].
Qed.

(** *** One line of the grammar *)

Lemma recorded_of_grammar_line (line : jsstring) (mm hs : Z)
      (rest : jsstring) :
  RecordedLine line mm hs rest ->
  recorded [line]
  = [{| StartingLine.line := textOf rest;
        StartingLine.start := startTime mm hs |}].
Proof.
  intros [Ht Hrest]. apply forallb_no_terminator in Hrest.
  inversion Ht as [m1 m2 s1 s2 f1 f2 rest' H1 H2 H3 H4 H5 H6 Hline].
  subst rest'.
  pose proof (regexMatch_shape m1 m2 s1 s2 f1 f2 rest
                               H1 H2 H3 H4 H5 H6 Hrest) as Hm.
  unfold recorded. cbn [flat_map]. rewrite app_nil_r.
  match goal with
  | |- context [regexMatch ?l] =>
      replace (regexMatch l)
        with (Some ([m1; m2], [s1; s2; 46%N; f1; f2], rest))
        by (symmetry; exact Hm)
  end.
  now rewrite (@start_of_captures m1 m2 s1 s2 f1 f2 H3 H4).
Qed.

Lemma recorded_of_other_line (line : jsstring) :
  (forall mm hs rest, ~ RecordedLine line mm hs rest) ->
  recorded [line] = [].
Proof.
  intros Hnone. unfold recorded. cbn [flat_map]. rewrite app_nil_r.
  destruct (regexMatch line) as [[[a b] rest]|] eqn:E; [|reflexivity].
  exfalso. apply regexMatch_Some in E.
  destruct E as (m1 & m2 & s1 & s2 & f1 & f2 & Hd & -> & _ & _ & Hrest).
  destruct Hd as (H1 & H2 & H3 & H4 & H5 & H6).
  apply (Hnone (10 * digitVal m1 + digitVal m2)%Z
               (1000 * digitVal s1 + 100 * digitVal s2
                + 10 * digitVal f1 + digitVal f2)%Z rest).
  split; [|now apply forallb_no_terminator].
  exact (TimestampLine_intro m1 m2 s1 s2 f1 f2 rest H1 H2 H3 H4 H5 H6).
Qed.

Lemma recorded_of_other_lines (lines : list jsstring) :
  (forall l mm hs rest, In l lines -> ~ RecordedLine l mm hs rest) ->
  recorded lines = [].
Proof.
  induction lines as [|line lines IH]; intros Hnone; [reflexivity|].
  rewrite (recorded_cons line lines), IH
    by (intros l mm hs rest Hl; apply Hnone; now right).
  rewrite app_nil_r. apply recorded_of_other_line.
  intros mm hs rest. apply Hnone. now left.
Qed.

(** The one line of the grammar among lines that are not of the grammar
    is the one line recorded. *)
Lemma recorded_of_lone_line (before after : list jsstring)
      (line : jsstring) (mm hs : Z) (rest : jsstring) :
  RecordedLine line mm hs rest ->
  (forall l mm' hs' rest',
      In l (before ++ after) -> ~ RecordedLine l mm' hs' rest') ->
  recorded (before ++ line :: after)
  = [{| StartingLine.line := textOf rest;
        StartingLine.start := startTime mm hs |}].
Proof.
  intros Hline Hnone. unfold recorded at 1. rewrite flat_map_app.
  fold (recorded before). fold (recorded (line :: after)).
  rewrite (recorded_cons line after), (recorded_of_grammar_line Hline).
  rewrite !recorded_of_other_lines; [reflexivity| |];
    intros l mm' hs' rest' Hl; apply Hnone, in_or_app; tauto.
Qed.

End Parsing.

(** ** What the specification says of the parser *)

Module ParserClaims.

Import Client Spec StringFacts Parsing.

(** C1, as stated, fails in its last part: a text whose only line
    matches the grammar [[MM:SS.ff]<rest>], with a carriage return in the
    rest, yields no timed line at all. *)
Lemma lone_grammar_line_may_emit_nothing :
  ~ (forall lyrics before line after mm hs rest,
        physicalLines lyrics = before ++ line :: after ->
        TimestampLine line mm hs rest ->
        (forall l mm' hs' rest',
            In l (before ++ after) -> ~ TimestampLine l mm' hs' rest') ->
        exists only,
          parseSyncedLyrics lyrics = inr [only]
          /\ end_ only = duration lyrics).
Proof.
  intros H.
  destruct (H helloCR [] (str "[00:01.50]Hello" ++ [CR]) []
              0%Z 150%Z (str "Hello" ++ [CR]))
    as (only & Hparse & _).
  - reflexivity.
  - exact (TimestampLine_intro 48%N 48%N 48%N 49%N 53%N 48%N
             (str "Hello" ++ [CR])
             eq_refl eq_refl eq_refl eq_refl eq_refl eq_refl).
  - intros l mm' hs' rest' [].
  - vm_compute in Hparse. discriminate.
Qed.

(** C1, amended.  For every record whose parse emits [n >= 1] timed
    lines, each line but the last ends where the next one starts, and the
    last one ends at the record's duration, whatever that duration is (it
    is not compared with the last start).  Parsing a non-empty text emits
    one timed line for each line of the grammar whose rest holds no
    carriage return, U+2028 or U+2029; in particular a text with exactly
    one such line yields exactly one timed line, which ends at the
    duration. *)
Theorem end_times_chain :
  (forall lyrics out n,
      parseSyncedLyrics lyrics = inr out ->
      List.length out = n ->
      1 <= n ->
      (forall i, i < n - 1 ->
         exists a b, nth_error out i = Some a
                     /\ nth_error out (i + 1) = Some b
                     /\ end_ a = start b)
      /\ (exists z, nth_error out (n - 1) = Some z
                    /\ end_ z = duration lyrics))
  /\ (forall lyrics,
         syncedLyrics lyrics <> [] ->
         exists out,
           parseSyncedLyrics lyrics = inr out
           /\ Emits RecordedLine (physicalLines lyrics)
                    (map startAndText out))
  /\ (forall lyrics before line after mm hs rest,
         physicalLines lyrics = before ++ line :: after ->
         RecordedLine line mm hs rest ->
         (forall l mm' hs' rest',
             In l (before ++ after) -> ~ RecordedLine l mm' hs' rest') ->
         parseSyncedLyrics lyrics
         = inr [ {| start := startTime mm hs;
                    end_ := duration lyrics;
                    text := textOf rest |} ]).
Proof.
  split; [|split].
  - intros lyrics out n Hparse Hlen Hn. apply parse_inr in Hparse.
    destruct Hparse as [_ Hout].
    set (rec := recorded (physicalLines lyrics)) in *.
    assert (List.length rec = n) as Hrec
        by (now rewrite <- Hlen, Hout, attachEnds_length).
    split.
    + intros i Hi.
      destruct (nth_error out i) as [a|] eqn:Ea;
        [|apply nth_error_None in Ea; lia].
      destruct (nth_error out (i + 1)) as [b|] eqn:Eb;
        [|apply nth_error_None in Eb; lia].
      exists a, b. repeat split.
      rewrite Hout in Ea, Eb. rewrite Nat.add_1_r in Eb.
      exact (attachEnds_next _ _ _ Ea Eb).
    + destruct (nth_error out (n - 1)) as [z|] eqn:E.
      * exists z. split; [reflexivity|].
        rewrite Hout, <- Hrec in E. exact (attachEnds_last _ _ E).
      * apply nth_error_None in E. lia.
  - intros lyrics Hne. rewrite parse_unfold.
    destruct (syncedLyrics lyrics) as [|c s] eqn:E; [contradiction|].
    eexists. split; [reflexivity|].
    rewrite attachEnds_startAndText. apply recorded_emits.
  - intros lyrics before line after mm hs rest Hlines Hline Hnone.
    rewrite parse_unfold, Hlines.
    rewrite (recorded_of_lone_line before after Hline Hnone).
    destruct (syncedLyrics lyrics) eqn:E; [|reflexivity].
    exfalso. unfold physicalLines in Hlines. rewrite E in Hlines.
    destruct before as [|x [|y before]]; try discriminate.
    injection Hlines as <- _. destruct Hline as [Ht _]. inversion Ht.
Qed.

Lemma end_times_chain_witness :
  (parseSyncedLyrics helloWorld = inr helloWorldLines
   /\ List.length helloWorldLines = 2
   /\ 1 <= 2
   /\ (forall i, i < 2 - 1 ->
         exists a b, nth_error helloWorldLines i = Some a
                     /\ nth_error helloWorldLines (i + 1) = Some b
                     /\ end_ a = start b)
   /\ (exists z, nth_error helloWorldLines (2 - 1) = Some z
                 /\ end_ z = duration helloWorld))
  /\ (physicalLines shortTrack = [] ++ str "[00:03.00]late" :: []
      /\ RecordedLine (str "[00:03.00]late") 0 300 (str "late")
      /\ (forall l mm' hs' rest',
             In l ([] ++ []) -> ~ RecordedLine l mm' hs' rest')
      /\ parseSyncedLyrics shortTrack
         = inr [ {| start := startTime 0 300;
                    end_ := duration shortTrack;
                    text := textOf (str "late") |} ]).
Proof.
  assert (parseSyncedLyrics helloWorld = inr helloWorldLines) as Hparse
      by (vm_compute; reflexivity).
  assert (List.length helloWorldLines = 2) as Hlen by reflexivity.
  assert (1 <= 2) as Hn by lia.
  pose proof (proj1 end_times_chain helloWorld helloWorldLines 2
                    Hparse Hlen Hn) as Hchain.
  assert (physicalLines shortTrack = [] ++ str "[00:03.00]late" :: [])
    as Hlines by reflexivity.
  assert (RecordedLine (str "[00:03.00]late") 0 300 (str "late")) as Hline.
  { split.
    - exact (TimestampLine_intro 48%N 48%N 48%N 51%N 48%N 48%N (str "late")
               eq_refl eq_refl eq_refl eq_refl eq_refl eq_refl).
    - repeat constructor. }
  assert (forall l mm' hs' rest',
             In l (@nil jsstring ++ []) -> ~ RecordedLine l mm' hs' rest')
    as Hnone by (intros l mm' hs' rest' []).
  exact (conj (conj Hparse (conj Hlen (conj Hn Hchain)))
              (conj Hlines (conj Hline (conj Hnone
                 (proj2 (proj2 end_times_chain) shortTrack [] _ [] _ _ _
                        Hlines Hline Hnone))))).
Defined.

(** The last line may end before it starts: the duration closes it
    unchanged. *)
Example final_line_may_end_before_it_starts :
  parseSyncedLyrics shortTrack
  = inr [ {| start := seconds_3; end_ := ofZ 1; text := str "late" |} ]
  /\ lt (ofZ 1) seconds_3 = true.
Proof. split; vm_compute; reflexivity. Qed.

(** C3, as stated, fails: a physical line that ends in a carriage return
    matches the grammar [[MM:SS.ff]<rest>], yet nothing is recorded for
    it. *)
Lemma carriage_return_line_is_skipped :
  ~ (forall lyrics out,
       parseSyncedLyrics lyrics = inr out ->
       Emits TimestampLine (physicalLines lyrics) (map startAndText out)).
Proof.
  intros H. specialize (H helloCR [] ltac:(vm_compute; reflexivity)).
  cbv in H. inversion H as [| |line lines out Hskip Hrest]. subst.
  apply (Hskip 0%Z 150%Z (str "Hello" ++ [CR])).
  exact (TimestampLine_intro 48%N 48%N 48%N 49%N 53%N 48%N
           (str "Hello" ++ [CR])
           eq_refl eq_refl eq_refl eq_refl eq_refl eq_refl).
Qed.

(** C3, amended.  For every physical line of the synced-lyrics text, a
    timed line is recorded exactly when the line matches the grammar
    [[MM:SS.ff]<rest>] (two digits, a colon, two digits, a period, two
    digits, between brackets) and its rest holds no carriage return and
    no U+2028 or U+2029; every other line, blank or not, is skipped and
    parsing never fails on it; the recorded start is [MM*60 + SS.ff].
    The two-line scenario yields the two timed lines of the
    specification. *)
Theorem lines_recorded_by_grammar :
  (forall lyrics,
      syncedLyrics lyrics <> [] ->
      exists out,
        parseSyncedLyrics lyrics = inr out
        /\ Emits RecordedLine (physicalLines lyrics) (map startAndText out))
  /\ parseSyncedLyrics helloWorld = inr helloWorldLines.
Proof.
  split; [|vm_compute; reflexivity].
  intros lyrics Hne. rewrite parse_unfold.
  destruct (syncedLyrics lyrics) as [|c s] eqn:E; [contradiction|].
  eexists. split; [reflexivity|].
  rewrite attachEnds_startAndText. apply recorded_emits.
Qed.

Lemma lines_recorded_by_grammar_witness :
  syncedLyrics helloCR <> []
  /\ exists out,
       parseSyncedLyrics helloCR = inr out
       /\ Emits RecordedLine (physicalLines helloCR) (map startAndText out).
Proof.
  assert (syncedLyrics helloCR <> []) as Hne by discriminate.
  split; [exact Hne|].
  exact (proj1 lines_recorded_by_grammar helloCR Hne).
Defined.

(** C5, as stated, fails: two lines whose timestamps go backwards are
    emitted in the order of the text. *)
Lemma starts_can_decrease :
  ~ (forall lyrics out,
       parseSyncedLyrics lyrics = inr out ->
       nondecreasing (map start out) = true).
Proof.
  intros H.
  specialize (H backwards (linesOf (parseSyncedLyrics backwards))
                ltac:(vm_compute; reflexivity)).
  vm_compute in H. discriminate.
Qed.

(** C5, amended.  For every record accepted by parse, the emitted start
    values are the timestamps of the matching lines in their order of
    appearance in the split text (nothing is sorted): each start is the
    [MM*60 + SS.ff] of its line of the grammar, and the starts are
    non-decreasing in emission order exactly when the timestamps are
    non-decreasing in the text. *)
Theorem starts_follow_text_order (lyrics : LyricSearchResult) :
  syncedLyrics lyrics <> [] ->
  exists out,
    parseSyncedLyrics lyrics = inr out
    /\ map start out = timestamps (physicalLines lyrics)
    /\ Emits RecordedLine (physicalLines lyrics) (map startAndText out)
    /\ nondecreasing (map start out)
       = nondecreasing (timestamps (physicalLines lyrics)).
Proof.
  intros Hne. rewrite parse_unfold.
  destruct (syncedLyrics lyrics) as [|c s] eqn:E; [contradiction|].
  eexists. split; [reflexivity|].
  assert (map start (attachEnds (recorded (physicalLines lyrics))
                                (duration lyrics))
          = timestamps (physicalLines lyrics)) as Hstarts
      by (now rewrite attachEnds_start, recorded_start).
  split; [exact Hstarts|]. split.
  - rewrite attachEnds_startAndText. apply recorded_emits.
  - now rewrite Hstarts.
Qed.

Lemma starts_follow_text_order_witness :
  syncedLyrics backwards <> []
  /\ exists out,
       parseSyncedLyrics backwards = inr out
       /\ map start out = timestamps (physicalLines backwards)
       /\ Emits RecordedLine (physicalLines backwards) (map startAndText out)
       /\ nondecreasing (map start out)
          = nondecreasing (timestamps (physicalLines backwards)).
Proof.
  assert (syncedLyrics backwards <> []) as Hne by discriminate.
  exact (conj Hne (starts_follow_text_order backwards Hne)).
Defined.

Lemma unmatched_records_nothing (lines : list jsstring) :
  (forall line mm hs rest, In line lines -> ~ TimestampLine line mm hs rest) ->
  recorded lines = [].
Proof.
  induction lines as [|line lines IH]; intros Hnone; [reflexivity|].
  rewrite (recorded_cons line lines), IH
    by (intros l mm hs rest Hl; apply Hnone; now right).
  rewrite app_nil_r. unfold recorded. cbn [flat_map]. rewrite app_nil_r.
  destruct (regexMatch line) as [[[a b] rest]|] eqn:E; [|reflexivity].
  exfalso. apply regexMatch_Some in E.
  destruct E as (m1 & m2 & s1 & s2 & f1 & f2 & Hd & -> & _).
  destruct Hd as (H1 & H2 & H3 & H4 & H5 & H6).
  apply (Hnone _ _ _ rest (or_introl eq_refl)
               (TimestampLine_intro m1 m2 s1 s2 f1 f2 rest H1 H2 H3 H4 H5 H6)).
Qed.

(** C6. Parsing fails, with the error for missing synced lyrics, if and
    only if the synced-lyrics text is empty; a non-empty text in which no
    line matches the timestamp grammar parses to the empty sequence. *)
Theorem parse_fails_only_on_empty_text (lyrics : LyricSearchResult) :
  (parseSyncedLyrics lyrics = inl noSyncedLyrics <-> syncedLyrics lyrics = [])
  /\ (forall e, parseSyncedLyrics lyrics = inl e -> e = noSyncedLyrics)
  /\ (syncedLyrics lyrics <> [] ->
      (forall line mm hs rest,
          In line (physicalLines lyrics) -> ~ TimestampLine line mm hs rest) ->
      parseSyncedLyrics lyrics = inr []).
Proof.
  rewrite parse_unfold. split; [|split].
  - destruct (syncedLyrics lyrics); split; intros H;
      reflexivity || discriminate.
  - intros e. destruct (syncedLyrics lyrics); intros H;
      [now injection H as <-|discriminate].
  - intros Hne Hnone.
    destruct (syncedLyrics lyrics) eqn:E; [contradiction|].
    now rewrite (unmatched_records_nothing _ Hnone).
Qed.

Lemma parse_fails_only_on_empty_text_witness :
  syncedLyrics noTimestamps <> []
  /\ (forall line mm hs rest,
         In line (physicalLines noTimestamps) ->
         ~ TimestampLine line mm hs rest)
  /\ parseSyncedLyrics noTimestamps = inr [].
Proof.
  assert (syncedLyrics noTimestamps <> []) as Hne by discriminate.
  assert (forall line mm hs rest,
             In line (physicalLines noTimestamps) ->
             ~ TimestampLine line mm hs rest) as Hnone.
  { intros line mm hs rest Hin Ht. cbv in Hin.
    destruct Hin as [<-|[<-|[]]]; inversion Ht. }
  exact (conj Hne (conj Hnone
           (proj2 (proj2 (parse_fails_only_on_empty_text noTimestamps))
                  Hne Hnone))).
Defined.



End ParserClaims.

(** ** The selector *)

Module Selection.

Import Client Spec NumberFacts.

Lemma hasSyncedLyrics_nonempty (r : LyricSearchResult) :
  hasSyncedLyrics r = negb (isEmpty (syncedLyrics r)).
Proof.
  unfold hasSyncedLyrics. now destruct (syncedLyrics r).
Qed.

Lemma filter_hasSyncedLyrics (candidates : list LyricSearchResult) :
  filter hasSyncedLyrics candidates = eligible (Some true) candidates.
Proof.
  unfold eligible. apply filter_ext. exact hasSyncedLyrics_nonempty.
Qed.

Lemma provided_passes_guard (targetDuration : option number) :
  passesGuard (provided targetDuration).
Proof.
  unfold passesGuard. destruct targetDuration as [t|]; cbn; [|reflexivity].
  apply andb_false_r.
Qed.

(** *** One call, once the server has answered *)

Lemma getLyrics_answered (net : Network) (song artist : jsstring)
      (d : value) (syncedOnly : option bool)
      (candidates : list LyricSearchResult) (log : list jsstring) :
  Answers net song artist candidates ->
  candidates <> [] ->
  passesGuard d ->
  getLyrics net song artist
            (Some {| oDuration := d; oSyncedOnly := syncedOnly |}) log
  = (if truthy d
     then reduce (closer d) (eligible syncedOnly candidates)
     else match eligible syncedOnly candidates with
          | [] => inl (noLyricsFound song artist)
          | first :: _ => inr first
          end,
     log ++ [searchUrl song artist]).
Proof.
  intros Hnet Hne Hd.
  cbv beta iota zeta delta [getLyrics oDuration oSyncedOnly].
  unfold passesGuard in Hd. rewrite Hd.
  unfold bind at 1. unfold querySongLyrics, bind, fetch.
  rewrite Hnet. cbn [ok negb body json]. unfold ret, throw, lift.
  destruct candidates as [|c candidates]; [contradiction|].
  cbn [List.length Nat.eqb].
  assert ((if match syncedOnly with Some b => b | None => false end
           then filter hasSyncedLyrics (c :: candidates)
           else c :: candidates)
          = eligible syncedOnly (c :: candidates)) as ->.
  { destruct syncedOnly as [[|]|]; try reflexivity.
    apply filter_hasSyncedLyrics. }
  destruct (truthy d).
  - unfold reduce.
    now destruct (eligible syncedOnly (c :: candidates)).
  - now destruct (eligible syncedOnly (c :: candidates)).
Qed.

(** *** The scan of [reduce] *)

Lemma scan_stays_inside (d : value) (others : list LyricSearchResult)
      (first : LyricSearchResult) :
  In (fold_left (closer d) others first) (first :: others).
Proof.
  revert first. induction others as [|c others IH]; intros first.
  - now left.
  - cbn [fold_left]. destruct (IH (closer d first c)) as [H|H].
    + rewrite <- H. unfold closer. destruct (lt _ _); cbn; tauto.
    + now right; right.
Qed.

(** The scan keeps the first of the nearest records seen so far. *)
Lemma scan_keeps_closest (t : number) (others : list LyricSearchResult) :
  forall before acc after,
    (forall x, In x before -> lt (distance t acc) (distance t x) = true) ->
    (forall x, In x after -> le (distance t acc) (distance t x) = true) ->
    isNaN (distance t acc) = false ->
    (forall x, In x others -> isNaN (distance t x) = false) ->
    Closest t (before ++ acc :: after ++ others)
            (fold_left (closer (VNumber t)) others acc).
Proof.
  induction others as [|c others IH];
    intros before acc after Hbefore Hafter Hacc Hothers.
  - cbn [fold_left]. rewrite app_nil_r. now exists before, after.
  - cbn [fold_left]. unfold closer at 2. cbn [asNumber].
    change (Math_abs (sub (duration c) t)) with (distance t c).
    change (Math_abs (sub (duration acc) t)) with (distance t acc).
    assert (isNaN (distance t c) = false) as Hc by (apply Hothers; now left).
    assert (forall x, In x others -> isNaN (distance t x) = false) as Hrest
        by (intros x Hx; apply Hothers; now right).
    destruct (lt (distance t c) (distance t acc)) eqn:E.
    + replace (before ++ acc :: after ++ c :: others)
        with ((before ++ acc :: after) ++ c :: [] ++ others)
        by (now rewrite <- app_assoc).
      apply IH; try assumption; [|intros x []].
      intros x Hx. apply in_app_or in Hx. destruct Hx as [Hx|[<-|Hx]].
      * apply lt_trans with (distance t acc); auto.
      * exact E.
      * apply lt_le_trans with (distance t acc); auto.
    + replace (before ++ acc :: after ++ c :: others)
        with (before ++ acc :: (after ++ [c]) ++ others)
        by (now rewrite <- app_assoc).
      apply IH; try assumption.
      intros x Hx. apply in_app_or in Hx. destruct Hx as [Hx|[<-|[]]]; auto.
      now apply not_lt_le.
Qed.

(** For a finite target and a duration that is a number, the distance
    is a number. *)
Lemma distance_number (t : number) (r : LyricSearchResult) :
  isFinite t = true -> isNaN (duration r) = false ->
  isNaN (distance t r) = false.
Proof.
  intros Ht Hr. unfold distance. rewrite abs_number.
  now apply SFsub_number.
Qed.

Lemma eligible_of_none (syncedOnly : option bool) : eligible syncedOnly [] = [].
Proof. now destruct syncedOnly as [[|]|]. Qed.

Lemma eligible_synced (candidates : list LyricSearchResult)
      (r : LyricSearchResult) :
  In r (eligible (Some true) candidates) -> syncedLyrics r <> [].
Proof.
  unfold eligible. rewrite filter_In. intros [_ H] E.
  rewrite E in H. discriminate.
Qed.

End Selection.

(** ** What the specification says of the selector *)

Module SelectorClaims.

Import Client Spec NumberFacts Selection.

(** C2, as stated, fails: a target duration of 0 is a provided duration,
    yet the first candidate is returned although the second one is
    nearer to 0. *)
Lemma zero_target_selects_first :
  ~ (forall net song artist syncedOnly t candidates log,
        Answers net song artist candidates ->
        eligible syncedOnly candidates <> [] ->
        exists r log',
          getLyrics net song artist (options (Some t) syncedOnly) log
          = (inr r, log')
          /\ Closest t (eligible syncedOnly candidates) r).
Proof.
  intros H.
  destruct (H (serving twoCandidates) (str "song") (str "artist") None
              (ofZ 0) twoCandidates [] eq_refl ltac:(discriminate))
    as (r & log' & Hrun & before & after & Hsplit & _ & Hafter).
  apply (f_equal fst) in Hrun. vm_compute in Hrun. injection Hrun as <-.
  apply (f_equal (map duration)) in Hsplit. rewrite map_app in Hsplit.
  destruct before as [|b [|b' before]].
  - destruct after as [|a after]; [discriminate|].
    specialize (Hafter a (or_introl eq_refl)).
    cbn in Hsplit. injection Hsplit as Ha _.
    unfold distance in Hafter. rewrite <- Ha in Hafter.
    vm_compute in Hafter. discriminate.
  - vm_compute in Hsplit. congruence.
  - destruct before; discriminate.
Qed.

(** C2, amended.  For every non-empty filtered candidate list and every
    provided target duration other than 0 for which every
    [abs(record.duration - targetDuration)] is a number (as it is for a
    finite target and durations other than NaN), selection returns the
    record that minimizes that distance, and among the records at the
    minimal distance the first in input order; durations 200, 260, 300
    and target 263 give the 260 record. *)
Theorem nearest_candidate_selected :
  (forall net song artist syncedOnly t candidates log,
      Answers net song artist candidates ->
      eligible syncedOnly candidates <> [] ->
      truthyNumber t = true ->
      (forall r, In r (eligible syncedOnly candidates) ->
                 isNaN (distance t r) = false) ->
      exists r,
        getLyrics net song artist (options (Some t) syncedOnly) log
        = (inr r, log ++ [searchUrl song artist])
        /\ Closest t (eligible syncedOnly candidates) r)
  /\ fst (getLyrics (serving threeCandidates) (str "song") (str "artist")
                    (options (Some (ofZ 263)) None) [])
     = inr (record (ofZ 260) (str "[00:01.00]b")).
Proof.
  split; [|vm_compute; reflexivity].
  intros net song artist syncedOnly t candidates log Hnet Hne Ht Hnum.
  assert (candidates <> []) as Hcand
      by (intros ->; now rewrite eligible_of_none in Hne).
  unfold options.
  rewrite (getLyrics_answered syncedOnly log Hnet Hcand
                              (provided_passes_guard (Some t))).
  cbn [provided truthy]. rewrite Ht.
  destruct (eligible syncedOnly candidates) as [|first others];
    [contradiction|].
  cbn [reduce]. eexists. split; [reflexivity|].
  apply (scan_keeps_closest t others [] first []).
  - intros x [].
  - intros x [].
  - apply Hnum. now left.
  - intros x Hx. apply Hnum. now right.
Qed.

Lemma nearest_candidate_selected_witness :
  Answers (serving threeCandidates) (str "song") (str "artist") threeCandidates
  /\ eligible (Some true) threeCandidates <> []
  /\ truthyNumber (ofZ 263) = true
  /\ (forall r, In r (eligible (Some true) threeCandidates) ->
                isNaN (distance (ofZ 263) r) = false)
  /\ exists r,
       getLyrics (serving threeCandidates) (str "song") (str "artist")
                 (options (Some (ofZ 263)) (Some true)) []
       = (inr r, [] ++ [searchUrl (str "song") (str "artist")])
       /\ Closest (ofZ 263) (eligible (Some true) threeCandidates) r.
Proof.
  assert (Answers (serving threeCandidates) (str "song") (str "artist")
                  threeCandidates) as Hnet by reflexivity.
  assert (eligible (Some true) threeCandidates <> []) as Hne
      by (vm_compute; discriminate).
  assert (truthyNumber (ofZ 263) = true) as Ht by reflexivity.
  assert (forall r, In r (eligible (Some true) threeCandidates) ->
                    isNaN (distance (ofZ 263) r) = false) as Hnum.
  { intros r Hr. apply distance_number; [reflexivity|].
    cbn in Hr. destruct Hr as [<-|[<-|[<-|[]]]]; reflexivity. }
  exact (conj Hnet (conj Hne (conj Ht (conj Hnum
           (proj1 nearest_candidate_selected
                  _ _ _ _ _ _ [] Hnet Hne Ht Hnum))))).
Defined.

(** C9. For every non-empty filtered candidate list, selection returns
    a record of that filtered list (so with [syncedOnly] never one
    without synced lyrics), and without a target duration it returns the
    first record of the filtered list. *)
Theorem selected_from_eligible
        (net : Network) (song artist : jsstring)
        (syncedOnly : option bool) (targetDuration : option number)
        (candidates : list LyricSearchResult) (log : list jsstring) :
  Answers net song artist candidates ->
  eligible syncedOnly candidates <> [] ->
  exists r,
    getLyrics net song artist (options targetDuration syncedOnly) log
    = (inr r, log ++ [searchUrl song artist])
    /\ In r (eligible syncedOnly candidates)
    /\ (syncedOnly = Some true -> syncedLyrics r <> [])
    /\ (targetDuration = None ->
        nth_error (eligible syncedOnly candidates) 0 = Some r).
Proof.
  intros Hnet Hne.
  assert (candidates <> []) as Hcand
      by (intros ->; now rewrite eligible_of_none in Hne).
  unfold options.
  rewrite (getLyrics_answered syncedOnly log Hnet Hcand
                              (provided_passes_guard targetDuration)).
  assert (forall r, In r (eligible syncedOnly candidates) ->
                    syncedOnly = Some true -> syncedLyrics r <> []) as Hs
      by (intros r Hr ->; exact (eligible_synced _ _ Hr)).
  destruct (eligible syncedOnly candidates) as [|first others];
    [contradiction|].
  destruct (truthy (provided targetDuration)) eqn:Ht.
  - cbn [reduce]. eexists. split; [reflexivity|].
    pose proof (scan_stays_inside (provided targetDuration) others first)
      as Hin.
    split; [exact Hin|]. split; [exact (Hs _ Hin)|].
    intros ->. discriminate.
  - exists first. split; [reflexivity|].
    assert (In first (first :: others)) as Hin by now left.
    split; [exact Hin|]. split; [exact (Hs _ Hin)|]. reflexivity.
Qed.

Lemma selected_from_eligible_witness :
  Answers (serving threeCandidates) (str "song") (str "artist") threeCandidates
  /\ eligible (Some true) threeCandidates <> []
  /\ exists r,
       getLyrics (serving threeCandidates) (str "song") (str "artist")
                 (options None (Some true)) []
       = (inr r, [] ++ [searchUrl (str "song") (str "artist")])
       /\ In r (eligible (Some true) threeCandidates)
       /\ (Some true = Some true -> syncedLyrics r <> [])
       /\ (@None number = None ->
           nth_error (eligible (Some true) threeCandidates) 0 = Some r).
Proof.
  assert (Answers (serving threeCandidates) (str "song") (str "artist")
                  threeCandidates) as Hnet by reflexivity.
  assert (eligible (Some true) threeCandidates <> []) as Hne
      by (vm_compute; discriminate).
  exact (conj Hnet (conj Hne
           (selected_from_eligible (Some true) None [] Hnet Hne))).
Defined.

(** C4. When the [syncedOnly] filter leaves no record, the call should
    fail with the error for lyrics not found.  It does when no duration
    takes the scan; with a duration, [reduce] runs on the empty array
    and its TypeError is what the caller gets. *)
Theorem empty_filter_outcome
        (net : Network) (song artist : jsstring)
        (targetDuration : option number)
        (candidates : list LyricSearchResult) (log : list jsstring) :
  Answers net song artist candidates ->
  candidates <> [] ->
  eligible (Some true) candidates = [] ->
  getLyrics net song artist (options targetDuration (Some true)) log
  = (inl (if truthy (provided targetDuration)
          then reduceOfEmptyArray
          else noLyricsFound song artist),
     log ++ [searchUrl song artist]).
Proof.
  intros Hnet Hcand Hnone. unfold options.
  rewrite (getLyrics_answered (Some true) log Hnet Hcand
                              (provided_passes_guard targetDuration)).
  rewrite Hnone. now destruct (truthy (provided targetDuration)).
Qed.

Lemma empty_filter_outcome_witness :
  Answers (serving unsynced) (str "song") (str "artist") unsynced
  /\ unsynced <> []
  /\ eligible (Some true) unsynced = []
  /\ getLyrics (serving unsynced) (str "song") (str "artist")
               (options (Some (ofZ 263)) (Some true)) []
     = (inl (if truthy (provided (Some (ofZ 263)))
             then reduceOfEmptyArray
             else noLyricsFound (str "song") (str "artist")),
        [] ++ [searchUrl (str "song") (str "artist")]).
Proof.
  assert (Answers (serving unsynced) (str "song") (str "artist") unsynced)
    as Hnet by reflexivity.
  assert (unsynced <> []) as Hcand by discriminate.
  assert (eligible (Some true) unsynced = []) as Hnone by reflexivity.
  exact (conj Hnet (conj Hcand (conj Hnone
           (empty_filter_outcome (Some (ofZ 263)) [] Hnet Hcand Hnone)))).
Defined.

(** With a duration of 263 and a single candidate without synced
    lyrics, the caller gets the TypeError of [reduce], which is not the
    error for lyrics not found. *)
Example reduce_on_empty_array :
  fst (getLyrics (serving unsynced) (str "song") (str "artist")
                 (options (Some (ofZ 263)) (Some true)) [])
  = inl reduceOfEmptyArray
  /\ reduceOfEmptyArray <> noLyricsFound (str "song") (str "artist").
Proof. split; [vm_compute; reflexivity|discriminate]. Qed.




(** C10. For every candidate list, a duration equal to 0 (of either
    sign) behaves exactly as no duration: the type check does not fire
    and, once the server has answered, the first record of the filtered
    list is returned (the error for no lyrics when the filter leaves
    none), not the record nearest to 0. *)
Theorem zero_duration_is_no_duration :
  (forall net song artist syncedOnly sign log,
      getLyrics net song artist (options (Some (S754_zero sign)) syncedOnly) log
      = getLyrics net song artist (options None syncedOnly) log)
  /\ (forall net song artist syncedOnly sign candidates log,
         Answers net song artist candidates ->
         getLyrics net song artist
                   (options (Some (S754_zero sign)) syncedOnly) log
         = (match eligible syncedOnly candidates with
            | [] => inl (noLyricsFound song artist)
            | first :: _ => inr first
            end,
            log ++ [searchUrl song artist]))
  /\ fst (getLyrics (serving twoCandidates) (str "song") (str "artist")
                    (options (Some (ofZ 0)) None) [])
     = inr (record (ofZ 260) (str "[00:01.00]b"))
  /\ lt (distance (ofZ 0) (record (ofZ 200) (str "[00:01.00]a")))
        (distance (ofZ 0) (record (ofZ 260) (str "[00:01.00]b"))) = true.
Proof.
  split; [|split; [|split; vm_compute; reflexivity]].
  - intros net song artist syncedOnly sign log. reflexivity.
  - intros net song artist syncedOnly sign candidates log Hnet.
    destruct candidates as [|c cs].
    + rewrite eligible_of_none. unfold Answers in Hnet.
      cbv beta iota zeta delta [options provided getLyrics oDuration
                                oSyncedOnly truthy truthyNumber andb].
      unfold bind at 1. unfold querySongLyrics, bind, fetch.
      now rewrite Hnet.
    + unfold options.
      now rewrite (getLyrics_answered syncedOnly log Hnet
                     ltac:(discriminate)
                     (provided_passes_guard (Some (S754_zero sign)))).
Qed.

Lemma zero_duration_is_no_duration_witness :
  Answers (serving twoCandidates) (str "song") (str "artist") twoCandidates
  /\ getLyrics (serving twoCandidates) (str "song") (str "artist")
               (options (Some (S754_zero true)) (Some true)) []
     = (match eligible (Some true) twoCandidates with
        | [] => inl (noLyricsFound (str "song") (str "artist"))
        | first :: _ => inr first
        end,
        [] ++ [searchUrl (str "song") (str "artist")]).
Proof.
  assert (Answers (serving twoCandidates) (str "song") (str "artist")
                  twoCandidates) as Hnet by reflexivity.
  exact (conj Hnet
           (proj1 (proj2 zero_duration_is_no_duration)
                  (serving twoCandidates) (str "song") (str "artist")
                  (Some true) true twoCandidates [] Hnet)).
Defined.

(** A first candidate whose duration is NaN is kept by the scan, for its
    distance is NaN and [<] is false on NaN: the side condition of C2 on
    the distances cannot be left out. *)
Example nan_duration_record_is_kept :
  fst (getLyrics (serving [record NaN (str "[00:01.00]a");
                           record (ofZ 260) (str "[00:01.00]b")])
                 (str "song") (str "artist")
                 (options (Some (ofZ 263)) None) [])
  = inr (record NaN (str "[00:01.00]a")).
Proof. vm_compute. reflexivity. Qed.

End SelectorClaims.


(** ** The calls as a whole *)

Module Requests.

Import Client Spec Calls NumberFacts Selection.

(** *** What a call does, by the answer of the server *)

Lemma query_run (net : Network) (song artist : jsstring)
      (options : option QuerySongOptions) (log : list jsstring) :
  querySongLyrics net song artist options log
  = (match net (searchUrl song artist) with
     | None => inl Rejection
     | Some response =>
         if ok response then
           match body response with
           | NotJson => inl Rejection
           | JsonNull => inl (noLyricsFound song artist)
           | JsonArray [] => inl (noLyricsFound song artist)
           | JsonArray (c :: cs) => inr (eligible (wanted options) (c :: cs))
           end
         else inl (failedToFetch song artist)
     end,
     log ++ [searchUrl song artist]).
Proof.
  unfold querySongLyrics, bind, fetch.
  destruct (net (searchUrl song artist)) as [[o b]|]; [|reflexivity].
  destruct o; [|reflexivity]. cbn [ok negb body].
  destruct b as [| |[|c cs]]; try reflexivity.
  unfold json, ret. cbn [body List.length Nat.eqb].
  destruct options as [[[[|]|]]|]; cbn [wanted qSyncedOnly eligible];
    try reflexivity.
  now rewrite filter_hasSyncedLyrics.
Qed.

Lemma getLyrics_options (net : Network) (song artist : jsstring)
      (options : option GetLyricsOptions) :
  getLyrics net song artist options
  = getLyrics net song artist
              (Some {| oDuration := durationOf options;
                       oSyncedOnly := syncedOnlyOf options |}).
Proof. now destruct options as [[d so]|]. Qed.

Lemma getLyrics_run (net : Network) (song artist : jsstring)
      (options : option GetLyricsOptions) (log : list jsstring) :
  getLyrics net song artist options log
  = if rejected (durationOf options) then (inl mustBeNumber, log)
    else
      (match net (searchUrl song artist) with
       | None => inl Rejection
       | Some response =>
           if ok response then
             match body response with
             | NotJson => inl Rejection
             | JsonNull => inl (noLyricsFound song artist)
             | JsonArray [] => inl (noLyricsFound song artist)
             | JsonArray (c :: cs) =>
                 if truthy (durationOf options)
                 then reduce (closer (durationOf options))
                             (eligible (syncedOnlyOf options) (c :: cs))
                 else match eligible (syncedOnlyOf options) (c :: cs) with
                      | [] => inl (noLyricsFound song artist)
                      | first :: _ => inr first
                      end
             end
           else inl (failedToFetch song artist)
       end,
       log ++ [searchUrl song artist]).
Proof.
  rewrite getLyrics_options.
  set (d := durationOf options). set (so := syncedOnlyOf options).
  destruct (rejected d) eqn:Hd.
  - cbv beta iota zeta delta [getLyrics oDuration oSyncedOnly].
    unfold rejected in Hd. now rewrite Hd.
  - destruct (net (searchUrl song artist)) as [[o b]|] eqn:Hnet.
    + destruct o, b as [| |[|c cs]];
        try (cbv beta iota zeta delta [getLyrics oDuration oSyncedOnly];
             unfold rejected in Hd; rewrite Hd; unfold bind at 1;
             rewrite query_run, Hnet; reflexivity).
      cbn [ok body].
      apply (getLyrics_answered so log Hnet); [discriminate|exact Hd].
    + cbv beta iota zeta delta [getLyrics oDuration oSyncedOnly].
      unfold rejected in Hd. rewrite Hd. unfold bind at 1.
      now rewrite query_run, Hnet.
Qed.

(** *** [querySongLyrics] *)

(** X1. Every call of querySongLyrics sends exactly one request, to the
    search URL of its song and artist, whatever the server does and
    whatever the call returns or throws. *)
Theorem query_sends_one_request
        (net : Network) (song artist : jsstring)
        (options : option QuerySongOptions) (log : list jsstring) :
  snd (querySongLyrics net song artist options log)
  = log ++ [searchUrl song artist].
Proof. now rewrite query_run. Qed.

(** X2. querySongLyrics returns a list exactly when the server answers
    with a success status and a non-empty array; the list is then that
    array, or with [syncedOnly] its records with synced lyrics, in the
    order of the server. *)
Theorem query_returns_the_answer
        (net : Network) (song artist : jsstring)
        (options : option QuerySongOptions) (log log' : list jsstring)
        (results : list LyricSearchResult) :
  querySongLyrics net song artist options log = (inr results, log')
  <-> (exists candidates,
          Answers net song artist candidates
          /\ candidates <> []
          /\ results = eligible (wanted options) candidates)
      /\ log' = log ++ [searchUrl song artist].
Proof.
  rewrite query_run. unfold Answers. split.
  - destruct (net (searchUrl song artist)) as [[o b]|]; [|discriminate].
    destruct o; [|discriminate]. cbn [ok body].
    destruct b as [| |[|c cs]]; try discriminate.
    intros H. injection H as <- <-. split; [|reflexivity].
    exists (c :: cs). repeat split. discriminate.
  - intros [(candidates & Hnet & Hne & ->) ->]. rewrite Hnet. cbn [ok body].
    destruct candidates; [contradiction|reflexivity].
Qed.

(** X3. With [syncedOnly], querySongLyrics returns the empty list, and
    throws nothing, when the server answers candidates none of which has
    synced lyrics. *)
Theorem query_may_return_no_record
        (net : Network) (song artist : jsstring)
        (candidates : list LyricSearchResult) (log : list jsstring) :
  Answers net song artist candidates ->
  candidates <> [] ->
  eligible (Some true) candidates = [] ->
  querySongLyrics net song artist (Some {| qSyncedOnly := Some true |}) log
  = (inr [], log ++ [searchUrl song artist]).
Proof.
  intros Hnet Hne Hnone. rewrite query_run, Hnet.
  cbn [ok body wanted qSyncedOnly].
  destruct candidates; [contradiction|]. now rewrite Hnone.
Qed.

Lemma query_may_return_no_record_witness :
  Answers (serving unsynced) (str "song") (str "artist") unsynced
  /\ unsynced <> []
  /\ eligible (Some true) unsynced = []
  /\ querySongLyrics (serving unsynced) (str "song") (str "artist")
                     (Some {| qSyncedOnly := Some true |}) []
     = (inr [], [] ++ [searchUrl (str "song") (str "artist")]).
Proof.
  assert (Answers (serving unsynced) (str "song") (str "artist") unsynced)
    as Hnet by reflexivity.
  assert (unsynced <> []) as Hne by discriminate.
  assert (eligible (Some true) unsynced = []) as Hnone by reflexivity.
  exact (conj Hnet (conj Hne (conj Hnone
           (query_may_return_no_record [] Hnet Hne Hnone)))).
Defined.

(** X4. For answers of the declared type (no answer, a body that is
    not JSON, [null], an array of records), querySongLyrics throws
    exactly in these cases, always after its one request: the rejection,
    when the request fails or a successful answer is not JSON; the error
    for a failed fetch, when the status is not a success, whatever the
    body; the error for no lyrics, when a successful answer is [null] or
    the empty array. *)
Theorem query_failures
        (net : Network) (song artist : jsstring)
        (options : option QuerySongOptions) (log log' : list jsstring)
        (e : exn) :
  querySongLyrics net song artist options log = (inl e, log')
  <-> log' = log ++ [searchUrl song artist]
      /\ ((e = Rejection
           /\ (net (searchUrl song artist) = None
               \/ net (searchUrl song artist)
                  = Some {| ok := true; body := NotJson |}))
          \/ (e = failedToFetch song artist
              /\ exists b, net (searchUrl song artist)
                           = Some {| ok := false; body := b |})
          \/ (e = noLyricsFound song artist
              /\ (net (searchUrl song artist)
                  = Some {| ok := true; body := JsonNull |}
                  \/ net (searchUrl song artist)
                     = Some {| ok := true; body := JsonArray [] |}))).
Proof.
  rewrite query_run. split.
  - destruct (net (searchUrl song artist)) as [[o b]|].
    + destruct o; cbn [ok body].
      * destruct b as [| |[|c cs]]; intros H; inversion H; subst;
          (split; [reflexivity|]).
        -- left. split; [reflexivity|now right].
        -- right. right. split; [reflexivity|now left].
        -- right. right. split; [reflexivity|now right].
      * intros H. inversion H; subst. split; [reflexivity|].
        right. left. split; [reflexivity|now exists b].
    + intros H. inversion H; subst. split; [reflexivity|].
      left. split; [reflexivity|now left].
  - intros [-> [[-> [Hn|Hn]]|[[-> [b Hn]]|[-> [Hn|Hn]]]]];
      now rewrite Hn.
Qed.

Lemma query_failures_witness :
  querySongLyrics refusing (str "song") (str "artist") None []
  = (inl (failedToFetch (str "song") (str "artist")),
     [searchUrl (str "song") (str "artist")])
  /\ [searchUrl (str "song") (str "artist")]
     = [] ++ [searchUrl (str "song") (str "artist")]
  /\ exists b, refusing (searchUrl (str "song") (str "artist"))
               = Some {| ok := false; body := b |}.
Proof.
  assert ([searchUrl (str "song") (str "artist")]
          = [] ++ [searchUrl (str "song") (str "artist")]) as Hlog
      by reflexivity.
  assert (exists b, refusing (searchUrl (str "song") (str "artist"))
                    = Some {| ok := false; body := b |}) as Hnet
      by (now exists (JsonArray threeCandidates)).
  exact (conj (proj2 (query_failures refusing (str "song") (str "artist")
                        None [] [searchUrl (str "song") (str "artist")]
                        (failedToFetch (str "song") (str "artist")))
                     (conj Hlog (or_intror (or_introl
                        (conj eq_refl Hnet)))))
              (conj Hlog Hnet)).
Defined.

Lemma query_returns_the_answer_witness :
  ((exists candidates,
       Answers (serving mixedCandidates) (str "song") (str "artist") candidates
       /\ candidates <> []
       /\ [record (ofZ 260) (str "[00:01.00]b")]
          = eligible (wanted (Some {| qSyncedOnly := Some true |})) candidates)
   /\ [searchUrl (str "song") (str "artist")]
      = [] ++ [searchUrl (str "song") (str "artist")])
  /\ querySongLyrics (serving mixedCandidates) (str "song") (str "artist")
                     (Some {| qSyncedOnly := Some true |}) []
     = (inr [record (ofZ 260) (str "[00:01.00]b")],
        [searchUrl (str "song") (str "artist")]).
Proof.
  assert ((exists candidates,
              Answers (serving mixedCandidates) (str "song") (str "artist")
                      candidates
              /\ candidates <> []
              /\ [record (ofZ 260) (str "[00:01.00]b")]
                 = eligible (wanted (Some {| qSyncedOnly := Some true |}))
                            candidates)
          /\ [searchUrl (str "song") (str "artist")]
             = [] ++ [searchUrl (str "song") (str "artist")]) as H.
  { split; [|reflexivity]. exists mixedCandidates.
    split; [reflexivity|]. split; [discriminate|reflexivity]. }
  exact (conj H (proj2 (query_returns_the_answer _ _ _ _ _ _ _) H)).
Defined.

(** *** [getLyrics] *)

(** X5. A call of getLyrics sends no request when the duration is a
    truthy value that is not a number, and exactly one request, to the
    search URL, in every other case, whatever it then returns or
    throws. *)
Theorem getLyrics_sends_at_most_one_request
        (net : Network) (song artist : jsstring)
        (options : option GetLyricsOptions) (log : list jsstring) :
  snd (getLyrics net song artist options log)
  = if rejected (durationOf options) then log
    else log ++ [searchUrl song artist].
Proof.
  rewrite getLyrics_run. now destruct (rejected (durationOf options)).
Qed.

(** A record that [getLyrics] returns comes from the answer. *)
Lemma getLyrics_success
        (net : Network) (song artist : jsstring)
        (options : option GetLyricsOptions) (log log' : list jsstring)
        (r : LyricSearchResult) :
  getLyrics net song artist options log = (inr r, log') ->
  rejected (durationOf options) = false
  /\ log' = log ++ [searchUrl song artist]
  /\ exists candidates,
       Answers net song artist candidates
       /\ In r (eligible (syncedOnlyOf options) candidates).
Proof.
  rewrite getLyrics_run. unfold Answers.
  destruct (rejected (durationOf options)); [discriminate|].
  destruct (net (searchUrl song artist)) as [[o b]|]; [|discriminate].
  destruct o; [|discriminate]. cbn [ok body].
  destruct b as [| |[|c cs]]; try discriminate.
  intros H. injection H as Hr <-. repeat split.
  exists (c :: cs). split; [reflexivity|].
  destruct (eligible (syncedOnlyOf options) (c :: cs)) as [|first others];
    destruct (truthy (durationOf options)); try discriminate;
    cbn [reduce] in Hr; injection Hr as <-.
  - apply scan_stays_inside.
  - now left.
Qed.

(** X6. Whatever the options, a record returned by getLyrics is one of
    the records of the server's answer, and with [syncedOnly] one of
    those with synced lyrics; the duration was then falsy or a number. *)
Theorem getLyrics_returns_a_candidate
        (net : Network) (song artist : jsstring)
        (options : option GetLyricsOptions) (log log' : list jsstring)
        (r : LyricSearchResult) :
  getLyrics net song artist options log = (inr r, log') ->
  rejected (durationOf options) = false
  /\ log' = log ++ [searchUrl song artist]
  /\ exists candidates,
       Answers net song artist candidates
       /\ In r (eligible (syncedOnlyOf options) candidates).
Proof. apply getLyrics_success. Qed.

Lemma getLyrics_returns_a_candidate_witness :
  getLyrics (serving mixedCandidates) (str "song") (str "artist")
            (options (Some (ofZ 263)) (Some true)) []
  = (inr (record (ofZ 260) (str "[00:01.00]b")),
     [searchUrl (str "song") (str "artist")])
  /\ exists candidates,
       Answers (serving mixedCandidates) (str "song") (str "artist") candidates
       /\ In (record (ofZ 260) (str "[00:01.00]b"))
             (eligible (syncedOnlyOf (options (Some (ofZ 263)) (Some true)))
                       candidates).
Proof.
  assert (getLyrics (serving mixedCandidates) (str "song") (str "artist")
                    (options (Some (ofZ 263)) (Some true)) []
          = (inr (record (ofZ 260) (str "[00:01.00]b")),
             [searchUrl (str "song") (str "artist")])) as Hrun
      by (vm_compute; reflexivity).
  exact (conj Hrun
           (proj2 (proj2 (getLyrics_returns_a_candidate _ _ _ _ _ Hrun)))).
Defined.

(** X7. For answers of the declared type, getLyrics throws exactly in
    these cases: the error for a duration that is not a number, with no
    request, when the duration is truthy and not a number; otherwise,
    after its one request, the rejection and the error for a failed fetch
    as querySongLyrics does; the error for no lyrics when a successful
    answer is [null] or the empty array, or when the duration is falsy
    and the filter leaves no record of a non-empty answer; the TypeError
    of [reduce] when the duration is truthy and the filter leaves no
    record of a non-empty answer. *)
Theorem getLyrics_failures
        (net : Network) (song artist : jsstring)
        (options : option GetLyricsOptions) (log log' : list jsstring)
        (e : exn) :
  getLyrics net song artist options log = (inl e, log')
  <-> (e = mustBeNumber
       /\ rejected (durationOf options) = true
       /\ log' = log)
      \/ (rejected (durationOf options) = false
          /\ log' = log ++ [searchUrl song artist]
          /\ ((e = Rejection
               /\ (net (searchUrl song artist) = None
                   \/ net (searchUrl song artist)
                      = Some {| ok := true; body := NotJson |}))
              \/ (e = failedToFetch song artist
                  /\ exists b, net (searchUrl song artist)
                               = Some {| ok := false; body := b |})
              \/ (e = noLyricsFound song artist
                  /\ (net (searchUrl song artist)
                      = Some {| ok := true; body := JsonNull |}
                      \/ net (searchUrl song artist)
                         = Some {| ok := true; body := JsonArray [] |}
                      \/ (truthy (durationOf options) = false
                          /\ exists candidates,
                               Answers net song artist candidates
                               /\ candidates <> []
                               /\ eligible (syncedOnlyOf options) candidates
                                  = [])))
              \/ (e = reduceOfEmptyArray
                  /\ truthy (durationOf options) = true
                  /\ exists candidates,
                       Answers net song artist candidates
                       /\ candidates <> []
                       /\ eligible (syncedOnlyOf options) candidates = []))).
Proof.
  rewrite getLyrics_run. unfold Answers. split.
  - destruct (rejected (durationOf options)) eqn:Hd.
    + intros H. inversion H; subst. left. auto.
    + intros H. right.
      destruct (net (searchUrl song artist)) as [[[|] b]|] eqn:Hnet;
        cbn [ok body] in H.
      * destruct b as [| |[|c cs]].
        -- inversion H; subst. repeat (split; [reflexivity|]).
           left. split; [reflexivity|now right].
        -- inversion H; subst. repeat (split; [reflexivity|]).
           right. right. left. split; [reflexivity|now left].
        -- inversion H; subst. repeat (split; [reflexivity|]).
           right. right. left. split; [reflexivity|]. right. now left.
        -- destruct (truthy (durationOf options)) eqn:Ht;
             destruct (eligible (syncedOnlyOf options) (c :: cs)) eqn:El;
             cbn [reduce] in H; inversion H; subst;
             repeat (split; [reflexivity|]).
           ++ right. right. right. split; [reflexivity|].
              split; [reflexivity|]. exists (c :: cs).
              split; [reflexivity|]. split; [discriminate|exact El].
           ++ right. right. left. split; [reflexivity|]. right. right.
              split; [reflexivity|]. exists (c :: cs).
              split; [reflexivity|]. split; [discriminate|exact El].
      * inversion H; subst. repeat (split; [reflexivity|]).
        right. left. split; [reflexivity|now exists b].
      * inversion H; subst. repeat (split; [reflexivity|]).
        left. split; [reflexivity|now left].
  - intros [(-> & Hd & ->)|(Hd & -> & Hcases)]; rewrite Hd;
      [reflexivity|].
    destruct Hcases
      as [[-> [Hn|Hn]]
         |[[-> [b Hn]]
          |[[-> [Hn|[Hn|(Ht & cands & Hn & Hne & El)]]]
           |(-> & Ht & cands & Hn & Hne & El)]]];
      rewrite Hn; cbn [ok body]; try reflexivity;
      (destruct cands; [contradiction|]); now rewrite Ht, El.
Qed.

Lemma getLyrics_failures_witness :
  getLyrics (serving unsynced) (str "song") (str "artist")
            (options (Some (ofZ 263)) (Some true)) []
  = (inl reduceOfEmptyArray, [searchUrl (str "song") (str "artist")])
  /\ truthy (durationOf (options (Some (ofZ 263)) (Some true))) = true
  /\ exists candidates,
       Answers (serving unsynced) (str "song") (str "artist") candidates
       /\ candidates <> []
       /\ eligible (syncedOnlyOf (options (Some (ofZ 263)) (Some true)))
                   candidates = [].
Proof.
  assert (truthy (durationOf (options (Some (ofZ 263)) (Some true))) = true)
    as Ht by reflexivity.
  assert (exists candidates,
             Answers (serving unsynced) (str "song") (str "artist")
                     candidates
             /\ candidates <> []
             /\ eligible (syncedOnlyOf (options (Some (ofZ 263)) (Some true)))
                         candidates = []) as Hc.
  { exists unsynced. split; [reflexivity|].
    split; [discriminate|reflexivity]. }
  exact (conj (proj2 (getLyrics_failures (serving unsynced) (str "song")
                        (str "artist")
                        (options (Some (ofZ 263)) (Some true)) []
                        [searchUrl (str "song") (str "artist")]
                        reduceOfEmptyArray)
                     (or_intror (conj eq_refl (conj eq_refl
                        (or_intror (or_intror (or_intror
                           (conj eq_refl (conj Ht Hc)))))))))
              (conj Ht Hc)).
Defined.

(** X8. A failure of the search is the failure of getLyrics: when the
    duration passes the type check and querySongLyrics throws, getLyrics
    throws the same exception after the same single request. *)
Theorem getLyrics_passes_on_search_failures
        (net : Network) (song artist : jsstring)
        (options : option GetLyricsOptions) (log log' : list jsstring)
        (e : exn) :
  rejected (durationOf options) = false ->
  querySongLyrics net song artist None log = (inl e, log') ->
  getLyrics net song artist options log = (inl e, log').
Proof.
  intros Hd. rewrite getLyrics_run, query_run, Hd.
  destruct (net (searchUrl song artist)) as [[[|] b]|]; cbn [ok body];
    [|intros Hq; now inversion Hq..].
  destruct b as [| |[|c cs]]; intros Hq; now inversion Hq.
Qed.

Lemma getLyrics_passes_on_search_failures_witness :
  rejected (durationOf (options (Some (ofZ 263)) (Some true))) = false
  /\ querySongLyrics refusing (str "song") (str "artist") None []
     = (inl (failedToFetch (str "song") (str "artist")),
        [searchUrl (str "song") (str "artist")])
  /\ getLyrics refusing (str "song") (str "artist")
               (options (Some (ofZ 263)) (Some true)) []
     = (inl (failedToFetch (str "song") (str "artist")),
        [searchUrl (str "song") (str "artist")]).
Proof.
  assert (rejected (durationOf (options (Some (ofZ 263)) (Some true)))
          = false) as Hd by reflexivity.
  assert (querySongLyrics refusing (str "song") (str "artist") None []
          = (inl (failedToFetch (str "song") (str "artist")),
             [searchUrl (str "song") (str "artist")])) as Hq
      by reflexivity.
  exact (conj Hd (conj Hq
           (getLyrics_passes_on_search_failures refusing _ _ _ _ Hd Hq))).
Defined.

(** X9. Every falsy duration (0 of either sign, NaN, [null], [false],
    the empty string) makes getLyrics behave exactly as a duration left
    out, for every server and every [syncedOnly]. *)
Theorem falsy_duration_is_absent
        (net : Network) (song artist : jsstring)
        (d : value) (syncedOnly : option bool) (log : list jsstring) :
  truthy d = false ->
  getLyrics net song artist
            (Some {| oDuration := d; oSyncedOnly := syncedOnly |}) log
  = getLyrics net song artist
              (Some {| oDuration := VUndefined; oSyncedOnly := syncedOnly |})
              log.
Proof.
  intros Hd. rewrite !getLyrics_run. cbn [durationOf syncedOnlyOf
                                          oDuration oSyncedOnly].
  unfold rejected. rewrite Hd. reflexivity.
Qed.

Lemma falsy_duration_is_absent_witness :
  truthy (VNumber NaN) = false
  /\ getLyrics (serving twoCandidates) (str "song") (str "artist")
               (Some {| oDuration := VNumber NaN; oSyncedOnly := None |}) []
     = getLyrics (serving twoCandidates) (str "song") (str "artist")
                 (Some {| oDuration := VUndefined; oSyncedOnly := None |}) [].
Proof.
  assert (truthy (VNumber NaN) = false) as Hd by reflexivity.
  exact (conj Hd (falsy_duration_is_absent (serving twoCandidates)
                    (str "song") (str "artist") (VNumber NaN) None [] Hd)).
Defined.

(** X10. Without a (truthy) duration, getLyrics returns the first record
    of what querySongLyrics returns for the same [syncedOnly], and throws
    the error for no lyrics where querySongLyrics returns the empty
    list. *)
Theorem getLyrics_takes_the_first_result
        (net : Network) (song artist : jsstring)
        (d : value) (syncedOnly : option bool)
        (log log' : list jsstring) (results : list LyricSearchResult) :
  truthy d = false ->
  querySongLyrics net song artist (Some {| qSyncedOnly := syncedOnly |}) log
  = (inr results, log') ->
  getLyrics net song artist
            (Some {| oDuration := d; oSyncedOnly := syncedOnly |}) log
  = (match results with
     | [] => inl (noLyricsFound song artist)
     | first :: _ => inr first
     end, log').
Proof.
  intros Hd. rewrite getLyrics_run, query_run.
  cbn [durationOf syncedOnlyOf oDuration oSyncedOnly wanted qSyncedOnly].
  unfold rejected. rewrite Hd. cbn [andb].
  destruct (net (searchUrl song artist)) as [[[|] b]|]; cbn [ok body];
    [|intros Hq; now inversion Hq..].
  destruct b as [| |[|c cs]]; intros Hq; now inversion Hq.
Qed.

Lemma getLyrics_takes_the_first_result_witness :
  truthy VUndefined = false
  /\ querySongLyrics (serving unsynced) (str "song") (str "artist")
                     (Some {| qSyncedOnly := Some true |}) []
     = (inr [], [searchUrl (str "song") (str "artist")])
  /\ getLyrics (serving unsynced) (str "song") (str "artist")
               (Some {| oDuration := VUndefined; oSyncedOnly := Some true |})
               []
     = (inl (noLyricsFound (str "song") (str "artist")),
        [searchUrl (str "song") (str "artist")]).
Proof.
  assert (truthy VUndefined = false) as Hd by reflexivity.
  assert (querySongLyrics (serving unsynced) (str "song") (str "artist")
                          (Some {| qSyncedOnly := Some true |}) []
          = (inr [], [searchUrl (str "song") (str "artist")])) as Hq
      by reflexivity.
  exact (conj Hd (conj Hq
           (getLyrics_takes_the_first_result (serving unsynced) _ _ VUndefined
              (Some true) [] Hd Hq))).
Defined.

Lemma scan_keeps_first (d : value) (others : list LyricSearchResult)
      (first : LyricSearchResult) :
  (forall x, In x others ->
             lt (Math_abs (sub (duration x) (asNumber d)))
                (Math_abs (sub (duration first) (asNumber d))) = false) ->
  fold_left (closer d) others first = first.
Proof.
  induction others as [|c others IH]; intros H; [reflexivity|].
  cbn [fold_left]. unfold closer at 2.
  rewrite (H c (or_introl eq_refl)). apply IH.
  intros x Hx. apply H. now right.
Qed.

(** X11. An infinite target duration is a number and passes the type
    check, but it tells no candidate from another: when the durations of
    the filtered candidates are finite, getLyrics returns the first of
    them. *)
Theorem infinite_target_selects_first
        (net : Network) (song artist : jsstring)
        (sign : bool) (syncedOnly : option bool)
        (candidates : list LyricSearchResult) (log : list jsstring)
        (first : LyricSearchResult) (others : list LyricSearchResult) :
  Answers net song artist candidates ->
  eligible syncedOnly candidates = first :: others ->
  (forall r, In r (first :: others) -> isFinite (duration r) = true) ->
  getLyrics net song artist
            (options (Some (S754_infinity sign)) syncedOnly) log
  = (inr first, log ++ [searchUrl song artist]).
Proof.
  intros Hnet Hel Hfin.
  assert (candidates <> []) as Hcand
      by (intros ->; now rewrite eligible_of_none in Hel).
  unfold options.
  rewrite (getLyrics_answered syncedOnly log Hnet Hcand
                              (provided_passes_guard _)).
  cbn [provided truthy truthyNumber]. rewrite Hel. cbn [reduce].
  rewrite scan_keeps_first; [reflexivity|].
  assert (forall r, In r (first :: others) ->
                    Math_abs (sub (duration r) (S754_infinity sign))
                    = S754_infinity false) as Hinf.
  { intros r Hr. specialize (Hfin r Hr).
    now destruct (duration r). }
  intros x Hx. cbn [asNumber].
  rewrite (Hinf x (or_intror Hx)), (Hinf first (or_introl eq_refl)).
  reflexivity.
Qed.

Lemma infinite_target_selects_first_witness :
  Answers (serving twoCandidates) (str "song") (str "artist") twoCandidates
  /\ eligible None twoCandidates
     = record (ofZ 260) (str "[00:01.00]b")
       :: [record (ofZ 200) (str "[00:01.00]a")]
  /\ (forall r, In r (record (ofZ 260) (str "[00:01.00]b")
                      :: [record (ofZ 200) (str "[00:01.00]a")]) ->
                isFinite (duration r) = true)
  /\ getLyrics (serving twoCandidates) (str "song") (str "artist")
               (options (Some (S754_infinity false)) None) []
     = (inr (record (ofZ 260) (str "[00:01.00]b")),
        [] ++ [searchUrl (str "song") (str "artist")]).
Proof.
  assert (Answers (serving twoCandidates) (str "song") (str "artist")
                  twoCandidates) as Hnet by reflexivity.
  assert (eligible None twoCandidates
          = record (ofZ 260) (str "[00:01.00]b")
            :: [record (ofZ 200) (str "[00:01.00]a")]) as Hel
      by reflexivity.
  assert (forall r, In r (record (ofZ 260) (str "[00:01.00]b")
                          :: [record (ofZ 200) (str "[00:01.00]a")]) ->
                    isFinite (duration r) = true) as Hfin.
  { intros r [<-|[<-|[]]]; reflexivity. }
  exact (conj Hnet (conj Hel (conj Hfin
           (infinite_target_selects_first false None [] Hnet Hel Hfin)))).
Defined.

(** *** Messages and URLs *)

(** X12. The four errors the client throws and the TypeError of
    [reduce] are pairwise different, whatever the songs and the artists:
    one failure is never reported with the message of another. *)
Theorem failures_are_told_apart
        (song artist song' artist' : jsstring) :
  failedToFetch song artist <> noLyricsFound song' artist'
  /\ failedToFetch song artist <> mustBeNumber
  /\ failedToFetch song artist <> noSyncedLyrics
  /\ noLyricsFound song artist <> mustBeNumber
  /\ noLyricsFound song artist <> noSyncedLyrics
  /\ mustBeNumber <> noSyncedLyrics
  /\ reduceOfEmptyArray <> failedToFetch song artist
  /\ reduceOfEmptyArray <> noLyricsFound song artist
  /\ reduceOfEmptyArray <> mustBeNumber
  /\ reduceOfEmptyArray <> noSyncedLyrics.
Proof.
  unfold failedToFetch, noLyricsFound, mustBeNumber, noSyncedLyrics,
    reduceOfEmptyArray.
  repeat split; cbn; intros H; discriminate H.
Qed.

(** X13. The search URL holds the song and the artist as they are, with
    no escaping: a song title that contains the artist key sends the same
    request as the shorter title with a longer artist. *)
Theorem search_url_does_not_escape (x y z : jsstring) :
  searchUrl (x ++ artistKey ++ y) z = searchUrl x (y ++ artistKey ++ z).
Proof.
  unfold searchUrl, artistKey. now rewrite <- !app_assoc.
Qed.

End Requests.


(** ** [getLyricLines] *)

Module Composition.

Import Client Spec Calls Selection Parsing Requests.

Lemma getLyricLines_run (net : Network) (song artist : jsstring)
      (options : option GetLyricsOptions) (log : list jsstring) :
  getLyricLines net song artist options log
  = match getLyrics net song artist (forced options) log with
    | (inl e, log') => (inl e, log')
    | (inr r, log') => (parseSyncedLyrics r, log')
    end.
Proof.
  unfold getLyricLines, bind, forced, durationOf.
  now destruct (getLyrics _ _ _ _ _) as [[e|r] log'].
Qed.

(** What [getLyrics] returns under [syncedOnly] has synced lyrics. *)
Lemma forced_selection_has_lyrics (net : Network) (song artist : jsstring)
      (options : option GetLyricsOptions) (log log' : list jsstring)
      (r : LyricSearchResult) :
  getLyrics net song artist (forced options) log = (inr r, log') ->
  syncedLyrics r <> [].
Proof.
  intros H. apply getLyrics_success in H.
  destruct H as (_ & _ & candidates & _ & Hin).
  exact (eligible_synced _ _ Hin).
Qed.

Lemma getLyrics_keeps_its_messages (net : Network) (song artist : jsstring)
      (options : option GetLyricsOptions) (log log' : list jsstring)
      (e : exn) :
  getLyrics net song artist options log = (inl e, log') ->
  e <> noSyncedLyrics.
Proof.
  rewrite getLyrics_run.
  destruct (rejected (durationOf options));
    [intros H; inversion H; subst; discriminate|].
  destruct (net (searchUrl song artist)) as [[[|] b]|]; cbn [ok body];
    [|intros H; inversion H; subst; discriminate..].
  destruct b as [| |[|c cs]]; try (intros H; inversion H; subst; discriminate).
  destruct (truthy (durationOf options)),
    (eligible (syncedOnlyOf options) (c :: cs));
    cbn [reduce]; intros H; inversion H; subst; discriminate.
Qed.

(** X14. getLyricLines is getLyrics with [syncedOnly] forced on, whatever
    [syncedOnly] the caller passes, followed by the parser: the record
    getLyrics selects always parses, and every exception of getLyricLines
    is one of getLyrics, never the error for missing synced lyrics. *)
Theorem lines_of_the_selected_record
        (net : Network) (song artist : jsstring)
        (options : option GetLyricsOptions) (log : list jsstring) :
  (forall r log',
      getLyrics net song artist (forced options) log = (inr r, log') ->
      exists lines,
        parseSyncedLyrics r = inr lines
        /\ getLyricLines net song artist options log = (inr lines, log'))
  /\ (forall e log',
         getLyricLines net song artist options log = (inl e, log') ->
         getLyrics net song artist (forced options) log = (inl e, log')
         /\ e <> noSyncedLyrics).
Proof.
  rewrite getLyricLines_run. split.
  - intros r log' H. rewrite H.
    pose proof (forced_selection_has_lyrics _ _ _ _ _ H) as Hne.
    rewrite parse_unfold. destruct (syncedLyrics r); [contradiction|].
    eexists. split; reflexivity.
  - intros e log'.
    destruct (getLyrics net song artist (forced options) log)
      as [[e'|r] l] eqn:E.
    + intros H. injection H as <- <-. split; [reflexivity|].
      exact (getLyrics_keeps_its_messages _ _ _ _ _ E).
    + pose proof (forced_selection_has_lyrics _ _ _ _ _ E) as Hne.
      rewrite parse_unfold. destruct (syncedLyrics r); [contradiction|].
      discriminate.
Qed.

Lemma lines_of_the_selected_record_witness :
  getLyrics (serving mixedCandidates) (str "song") (str "artist")
            (forced (options None (Some false))) []
  = (inr (record (ofZ 260) (str "[00:01.00]b")),
     [searchUrl (str "song") (str "artist")])
  /\ exists lines,
       parseSyncedLyrics (record (ofZ 260) (str "[00:01.00]b")) = inr lines
       /\ getLyricLines (serving mixedCandidates) (str "song") (str "artist")
                        (options None (Some false)) []
          = (inr lines, [searchUrl (str "song") (str "artist")]).
Proof.
  assert (getLyrics (serving mixedCandidates) (str "song") (str "artist")
                    (forced (options None (Some false))) []
          = (inr (record (ofZ 260) (str "[00:01.00]b")),
             [searchUrl (str "song") (str "artist")])) as Hrun
      by reflexivity.
  exact (conj Hrun
           (proj1 (lines_of_the_selected_record (serving mixedCandidates)
                     (str "song") (str "artist")
                     (options None (Some false)) []) _ _ Hrun)).
Defined.

End Composition.

(** ** More on the parser *)

Module Lines.

Import Client Spec Calls StringFacts Parsing.

(** *** Lines with a line terminator *)

Lemma digit_no_terminator (c : char) :
  isDigit c = true -> isLineTerminator c = false.
Proof.
  intros H. apply isDigit_range in H. unfold isLineTerminator.
  repeat (apply orb_false_intro); apply N.eqb_neq; lia.
Qed.

Lemma matched_terminator_free (line : jsstring) :
  matching line = true -> terminatorFree line = true.
Proof.
  unfold matching. destruct (regexMatch line) as [[[a b] rest]|] eqn:E;
    [intros _|discriminate].
  apply regexMatch_Some in E.
  destruct E as (m1 & m2 & s1 & s2 & f1 & f2 & Hd & -> & _ & _ & Hrest).
  destruct Hd as (H1 & H2 & H3 & H4 & H5 & H6).
  unfold terminatorFree. cbn [forallb].
  rewrite (@digit_no_terminator m1 H1), (@digit_no_terminator m2 H2),
    (@digit_no_terminator s1 H3), (@digit_no_terminator s2 H4),
    (@digit_no_terminator f1 H5), (@digit_no_terminator f2 H6).
  exact Hrest.
Qed.

Lemma unmatched_lines_record_nothing (lines : list jsstring) :
  (forall line, In line lines -> matching line = false) ->
  recorded lines = [].
Proof.
  induction lines as [|line lines IH]; intros H; [reflexivity|].
  rewrite (recorded_cons line lines), IH by (intros l Hl; apply H; now right).
  rewrite app_nil_r. specialize (H line (or_introl eq_refl)).
  unfold recorded, matching in *. cbn [flat_map]. rewrite app_nil_r.
  now destruct (regexMatch line) as [[[a b] rest]|].
Qed.



(** *** How many lines *)

Lemma split_length (s : jsstring) :
  List.length (split LF s) = S (lineFeeds s).
Proof.
  unfold lineFeeds. induction s as [|c s IH]; [reflexivity|].
  cbn [split filter]. rewrite (N.eqb_sym LF c).
  destruct (N.eqb c LF).
  - cbn [List.length]. now rewrite IH.
  - rewrite <- IH. now destruct (split LF s).
Qed.

Lemma filter_length_mono {A} (p q : A -> bool) (l : list A) :
  (forall x, p x = true -> q x = true) ->
  List.length (filter p l) <= List.length (filter q l).
Proof.
  intros Hpq. induction l as [|x l IH]; [reflexivity|].
  cbn [filter]. destruct (p x) eqn:Hp.
  - rewrite (Hpq x Hp). cbn [List.length]. lia.
  - destruct (q x); cbn [List.length]; lia.
Qed.

(** X16. parse emits one timed line for each physical line the pattern
    accepts, so never more lines than the text has physical lines free of
    CR, U+2028 and U+2029, and never more than one plus the number of
    line feeds of the text. *)
Theorem emitted_lines_are_counted
        (lyrics : LyricSearchResult) (out : list LyricLine) :
  parseSyncedLyrics lyrics = inr out ->
  List.length out = List.length (filter matching (physicalLines lyrics))
  /\ List.length out
     <= List.length (filter terminatorFree (physicalLines lyrics))
  /\ List.length out <= S (lineFeeds (syncedLyrics lyrics)).
Proof.
  intros Hparse. apply parse_inr in Hparse. destruct Hparse as [_ ->].
  rewrite attachEnds_length, recorded_length.
  split; [reflexivity|]. split.
  - apply filter_length_mono. exact matched_terminator_free.
  - rewrite <- split_length. apply List.filter_length_le.
Qed.

Lemma emitted_lines_are_counted_witness :
  parseSyncedLyrics helloWorld = inr helloWorldLines
  /\ List.length helloWorldLines
     = List.length (filter matching (physicalLines helloWorld))
  /\ List.length helloWorldLines
     <= List.length (filter terminatorFree (physicalLines helloWorld))
  /\ List.length helloWorldLines <= S (lineFeeds (syncedLyrics helloWorld)).
Proof.
  assert (parseSyncedLyrics helloWorld = inr helloWorldLines) as Hparse
      by (vm_compute; reflexivity).
  exact (conj Hparse (emitted_lines_are_counted helloWorld Hparse)).
Defined.

(** *** Texts put together *)

Lemma split_app (a b : jsstring) :
  split LF (a ++ LF :: b) = split LF a ++ split LF b.
Proof.
  induction a as [|c a IH]; [reflexivity|].
  cbn [app split]. destruct (N.eqb c LF).
  - now rewrite IH.
  - rewrite IH. pose proof (split_nonempty LF a) as Hne.
    now destruct (split LF a).
Qed.

Lemma recorded_app (l1 l2 : list jsstring) :
  recorded (l1 ++ l2) = recorded l1 ++ recorded l2.
Proof. apply flat_map_app. Qed.

(** The lines of a record, also where parsing throws. *)
Lemma linesOf_parse (lyrics : LyricSearchResult) :
  linesOf (parseSyncedLyrics lyrics)
  = attachEnds (recorded (physicalLines lyrics)) (duration lyrics).
Proof.
  rewrite parse_unfold. unfold physicalLines.
  now destruct (syncedLyrics lyrics).
Qed.

(** X17. Parsing two texts joined by a line feed records the lines of
    the first text followed by the lines of the second, with the same
    starts and texts as when each text is parsed alone (an empty text
    counting for no line). *)
Theorem joined_texts_record_both
        (r : LyricSearchResult) (a b : jsstring) :
  map startAndText (linesOf (parseSyncedLyrics (withSynced r (a ++ LF :: b))))
  = map startAndText (linesOf (parseSyncedLyrics (withSynced r a)))
    ++ map startAndText (linesOf (parseSyncedLyrics (withSynced r b))).
Proof.
  rewrite !linesOf_parse, !attachEnds_startAndText. unfold physicalLines.
  cbn [withSynced syncedLyrics].
  now rewrite split_app, recorded_app, map_app.
Qed.

Lemma split_one_line (s : jsstring) : lineFeeds s = 0 -> split LF s = [s].
Proof.
  unfold lineFeeds. induction s as [|c s IH]; [reflexivity|].
  cbn [filter split]. rewrite (N.eqb_sym LF c).
  destruct (N.eqb c LF); [discriminate|]. intros H. now rewrite (IH H).
Qed.

(** X22. A physical line the pattern rejects leaves no trace: a text
    with such a line between two parts parses to the same timed lines,
    ends included, as the text without it. *)
Theorem rejected_line_leaves_no_trace
        (r : LyricSearchResult) (a b stray : jsstring) :
  lineFeeds stray = 0 ->
  matching stray = false ->
  parseSyncedLyrics (withSynced r (a ++ LF :: stray ++ LF :: b))
  = parseSyncedLyrics (withSynced r (a ++ LF :: b)).
Proof.
  intros Hone Hstray. rewrite !parse_unfold. unfold physicalLines.
  cbn [withSynced syncedLyrics duration].
  assert (recorded (split LF (a ++ LF :: stray ++ LF :: b))
          = recorded (split LF (a ++ LF :: b))) as ->.
  { rewrite !split_app, !recorded_app, (split_one_line _ Hone).
    rewrite (unmatched_lines_record_nothing [stray]); [reflexivity|].
    intros line [<-|[]]. exact Hstray. }
  now destruct a.
Qed.

Lemma rejected_line_leaves_no_trace_witness :
  lineFeeds (str "[ar:Somebody]") = 0
  /\ matching (str "[ar:Somebody]") = false
  /\ parseSyncedLyrics
       (withSynced helloWorld
          (str "[00:01.50]Hello" ++ LF :: str "[ar:Somebody]"
             ++ LF :: str "[00:03.00]World"))
     = parseSyncedLyrics
         (withSynced helloWorld
            (str "[00:01.50]Hello" ++ LF :: str "[00:03.00]World")).
Proof.
  assert (lineFeeds (str "[ar:Somebody]") = 0) as Hone by reflexivity.
  assert (matching (str "[ar:Somebody]") = false) as Hstray by reflexivity.
  exact (conj Hone (conj Hstray
           (rejected_line_leaves_no_trace helloWorld
              (str "[00:01.50]Hello") (str "[00:03.00]World")
              (str "[ar:Somebody]") Hone Hstray))).
Defined.

(** *** Texts are trimmed *)

Lemma trimStart_fixed (c : char) (s : jsstring) :
  isTrimmed c = false -> trimStart (c :: s) = c :: s.
Proof. intros H. cbn [trimStart]. now rewrite H. Qed.

Lemma trimStart_shape (s : jsstring) :
  trimStart s = []
  \/ exists c t, trimStart s = c :: t /\ isTrimmed c = false.
Proof.
  induction s as [|c s IH]; [now left|].
  cbn [trimStart]. destruct (isTrimmed c) eqn:E; [exact IH|].
  right. now exists c, s.
Qed.

Lemma trimStart_twice (s : jsstring) : trimStart (trimStart s) = trimStart s.
Proof.
  destruct (trimStart_shape s) as [->|(c & t & -> & H)]; [reflexivity|].
  now apply trimStart_fixed.
Qed.

Lemma trimStart_before (c : char) (u v : jsstring) :
  isTrimmed c = false -> trimStart (u ++ c :: v) = trimStart u ++ c :: v.
Proof.
  intros H. induction u as [|d u IH]; [now apply trimStart_fixed|].
  cbn [app trimStart]. now destruct (isTrimmed d).
Qed.

Lemma trimEnd_cons (c : char) (s : jsstring) :
  isTrimmed c = false -> trimEnd (c :: s) = c :: trimEnd s.
Proof.
  intros H. unfold trimEnd. cbn [rev].
  rewrite (@trimStart_before c (rev s) [] H), rev_app_distr. reflexivity.
Qed.

Lemma trimEnd_twice (s : jsstring) : trimEnd (trimEnd s) = trimEnd s.
Proof.
  unfold trimEnd. now rewrite rev_involutive, trimStart_twice.
Qed.

Lemma trim_twice (s : jsstring) : trim (trim s) = trim s.
Proof.
  unfold trim.
  destruct (trimStart_shape s) as [->|(c & t & -> & H)]; [reflexivity|].
  rewrite (@trimEnd_cons c t H), (@trimStart_fixed c _ H),
    (@trimEnd_cons c _ H).
  now rewrite trimEnd_twice.
Qed.

Lemma textOf_trimmed (rest : jsstring) : trim (textOf rest) = textOf rest.
Proof.
  unfold textOf. destruct (trim rest) eqn:E; [reflexivity|].
  rewrite <- E. apply trim_twice.
Qed.

Lemma textOf_terminator_free (rest : jsstring) :
  terminatorFree rest = true -> terminatorFree (textOf rest) = true.
Proof.
  unfold terminatorFree, textOf. intros H.
  destruct (trim rest) eqn:E; [reflexivity|]. rewrite <- E.
  rewrite forallb_forall in *. intros x Hx. apply H. now apply trim_In.
Qed.

Lemma texts_trimmed (lines : list jsstring) :
  Forall (fun t => trim t = t /\ terminatorFree t = true) (texts lines).
Proof.
  induction lines as [|line lines IH]; [constructor|].
  unfold texts in *. cbn [flat_map].
  destruct (regexMatch line) as [[[mm ssff] rest]|] eqn:E; [|exact IH].
  constructor; [|exact IH]. split; [apply textOf_trimmed|].
  apply regexMatch_Some in E.
  destruct E as (m1 & m2 & s1 & s2 & f1 & f2 & _ & _ & _ & _ & Hrest).
  now apply textOf_terminator_free.
Qed.

(** X18. Every text parse emits is left unchanged by [trim] (no white
    space at either end) and holds no line feed, carriage return, U+2028
    or U+2029. *)
Theorem emitted_texts_are_trimmed
        (lyrics : LyricSearchResult) (out : list LyricLine) :
  parseSyncedLyrics lyrics = inr out ->
  Forall (fun l => trim (text l) = text l
                   /\ terminatorFree (text l) = true) out.
Proof.
  intros Hparse. apply parse_inr in Hparse. destruct Hparse as [_ ->].
  pose proof (texts_trimmed (physicalLines lyrics)) as H.
  rewrite <- recorded_text, <- (attachEnds_text _ (duration lyrics)) in H.
  rewrite Forall_forall in *. intros l Hl. apply H. now apply in_map.
Qed.

Lemma emitted_texts_are_trimmed_witness :
  parseSyncedLyrics helloWorld = inr helloWorldLines
  /\ Forall (fun l => trim (text l) = text l
                      /\ terminatorFree (text l) = true) helloWorldLines.
Proof.
  assert (parseSyncedLyrics helloWorld = inr helloWorldLines) as Hparse
      by (vm_compute; reflexivity).
  exact (conj Hparse (emitted_texts_are_trimmed helloWorld Hparse)).
Defined.

(** *** Intervals *)

Lemma attachEnds_intervals (l : list StartingLine.t) (d : number) :
  Forall (fun x => lt (start x) (end_ x) = true) (attachEnds l d)
  <-> closesBefore (map StartingLine.start l) d = true.
Proof.
  induction l as [|x l IH]; [now split|].
  cbn [attachEnds map closesBefore]. destruct l as [|y l].
  - cbn [attachEnds map]. split.
    + intros H. now inversion H.
    + intros H. now repeat constructor.
  - cbn [map] in *. rewrite andb_true_iff, <- IH. split.
    + intros H. inversion H; subst. now split.
    + intros [H1 H2]. now constructor.
Qed.

(** X19. Every timed line parse emits starts strictly before it ends
    exactly when the timestamps of the matching lines strictly increase in
    the order of the text and the last one is below the record's
    duration. *)
Theorem intervals_are_positive
        (lyrics : LyricSearchResult) (out : list LyricLine) :
  parseSyncedLyrics lyrics = inr out ->
  (Forall (fun l => lt (start l) (end_ l) = true) out
   <-> closesBefore (timestamps (physicalLines lyrics)) (duration lyrics)
       = true).
Proof.
  intros Hparse. apply parse_inr in Hparse. destruct Hparse as [_ ->].
  now rewrite attachEnds_intervals, recorded_start.
Qed.

Lemma intervals_are_positive_witness :
  parseSyncedLyrics helloWorld = inr helloWorldLines
  /\ (Forall (fun l => lt (start l) (end_ l) = true) helloWorldLines
      <-> closesBefore (timestamps (physicalLines helloWorld))
                       (duration helloWorld) = true).
Proof.
  assert (parseSyncedLyrics helloWorld = inr helloWorldLines) as Hparse
      by (vm_compute; reflexivity).
  exact (conj Hparse (intervals_are_positive helloWorld Hparse)).
Defined.

End Lines.


(** ** Start times *)

Module StartTimes.

Import Client Spec Calls NumberFacts Parsing.

Section Signs.

Variables prec emax : Z.

Lemma binary_round_aux_positive (mx ex : Z) (lx : location) :
  (0 <= mx)%Z ->
  positiveOrZero (binary_round_aux prec emax false mx ex lx) = true.
Proof.
  intros H. pose proof (binary_round_aux_number prec emax false ex lx H) as Hn.
  unfold binary_round_aux in *.
  destruct (shr_fexp prec emax mx ex lx) as [mrs' e'].
  destruct (shr_fexp prec emax _ e' loc_Exact) as [mrs'' e''].
  destruct (shr_m mrs''); [reflexivity| |discriminate].
  now destruct (Z.leb _ _).
Qed.

Lemma binary_normalize_positive (m e : Z) :
  (0 <= m)%Z -> positiveOrZero (binary_normalize prec emax m e false) = true.
Proof.
  intros H. destruct m as [|p|p]; [reflexivity| |lia].
  cbn [binary_normalize]. unfold binary_round.
  destruct (shl_align _ _ _). now apply binary_round_aux_positive.
Qed.

Lemma SFmul_positive (x y : number) :
  positiveOrZero x = true -> positiveOrZero y = true -> isFinite y = true ->
  y <> S754_zero false ->
  positiveOrZero (SFmul prec emax x y) = true.
Proof.
  destruct x as [[|]|[|]| |[|] mx ex], y as [[|]|[|]| |[|] my ey];
    intros Hx Hy Hf Hz; try discriminate; try reflexivity;
    try contradiction.
  cbn [SFmul xorb]. now apply binary_round_aux_positive.
Qed.

Lemma SFdiv_positive (x y : number) :
  positiveOrZero x = true -> positiveOrZero y = true -> isFinite y = true ->
  y <> S754_zero false ->
  positiveOrZero (SFdiv prec emax x y) = true.
Proof.
  destruct x as [[|]|[|]| |[|] mx ex], y as [[|]|[|]| |[|] my ey];
    intros Hx Hy Hf Hz; try discriminate; try reflexivity;
    try contradiction.
  cbn [SFdiv xorb]. unfold SFdiv_core_binary.
  match goal with
  | |- context [Z.div_eucl ?a ?b] =>
      pose proof (Z_div_mod a b ltac:(reflexivity)) as Hq;
      assert (0 <= a)%Z as Ha;
      [|destruct (Z.div_eucl a b) as [q r]]
  end.
  - match goal with
    | |- (0 <= match ?s with _ => _ end)%Z =>
        destruct s; try apply Z.shiftl_nonneg; lia
    end.
  - apply binary_round_aux_positive. nia.
Qed.

Lemma SFadd_positive (x y : number) :
  positiveOrZero x = true -> positiveOrZero y = true ->
  positiveOrZero (SFadd prec emax x y) = true.
Proof.
  destruct x as [[|]|[|]| |[|] mx ex], y as [[|]|[|]| |[|] my ey];
    intros Hx Hy; try discriminate; try reflexivity.
  cbn [SFadd cond_Zopp]. apply binary_normalize_positive. lia.
Qed.

End Signs.

Lemma ofZ_positive (z : Z) : (0 <= z)%Z -> positiveOrZero (ofZ z) = true.
Proof. apply binary_normalize_positive. Qed.

Lemma zero_le_positive (x : number) :
  positiveOrZero x = true -> le (ofZ 0) x = true.
Proof. now destruct x as [[|]|[|]| |[|] m e]. Qed.

Lemma digitVal_range (c : char) :
  isDigit c = true -> (0 <= digitVal c <= 9)%Z.
Proof.
  intros H. apply StringFacts.isDigit_range in H. unfold digitVal. lia.
Qed.

Lemma startTime_positive (mm hs : Z) :
  (0 <= mm)%Z -> (0 <= hs)%Z -> positiveOrZero (startTime mm hs) = true.
Proof.
  intros Hmm Hhs. unfold startTime, add, mul, div.
  apply SFadd_positive.
  - apply SFmul_positive; [now apply ofZ_positive|reflexivity..|discriminate].
  - apply SFdiv_positive; [now apply ofZ_positive|reflexivity..|discriminate].
Qed.

Lemma timestamps_positive (lines : list jsstring) :
  Forall (fun t => positiveOrZero t = true) (timestamps lines).
Proof.
  induction lines as [|line lines IH]; [constructor|].
  unfold timestamps in *. cbn [flat_map].
  destruct (regexMatch line) as [[[mm ssff] rest]|] eqn:E; [|exact IH].
  constructor; [|exact IH].
  apply regexMatch_Some in E.
  destruct E as (m1 & m2 & s1 & s2 & f1 & f2 & Hd & _ & -> & -> & _).
  destruct Hd as (H1 & H2 & H3 & H4 & H5 & H6).
  rewrite (@start_of_captures m1 m2 s1 s2 f1 f2 H3 H4).
  pose proof (digitVal_range _ H1). pose proof (digitVal_range _ H2).
  pose proof (digitVal_range _ H3). pose proof (digitVal_range _ H4).
  pose proof (digitVal_range _ H5). pose proof (digitVal_range _ H6).
  apply startTime_positive; lia.
Qed.

(** X20. Every start time parse emits is a number at or above zero: the
    comparison [0 <= start] holds, so no start is NaN or negative. *)
Theorem starts_are_not_negative
        (lyrics : LyricSearchResult) (out : list LyricLine) :
  parseSyncedLyrics lyrics = inr out ->
  Forall (fun l => le (ofZ 0) (start l) = true /\ isNaN (start l) = false)
         out.
Proof.
  intros Hparse. apply parse_inr in Hparse. destruct Hparse as [_ ->].
  pose proof (timestamps_positive (physicalLines lyrics)) as H.
  rewrite <- recorded_start, <- (attachEnds_start _ (duration lyrics)) in H.
  rewrite Forall_forall in *. intros l Hl.
  specialize (H (start l) (in_map start _ l Hl)).
  split; [now apply zero_le_positive|].
  now destruct (start l) as [[|]|[|]| |[|] m e].
Qed.

Lemma starts_are_not_negative_witness :
  parseSyncedLyrics helloWorld = inr helloWorldLines
  /\ Forall (fun l => le (ofZ 0) (start l) = true /\ isNaN (start l) = false)
            helloWorldLines.
Proof.
  assert (parseSyncedLyrics helloWorld = inr helloWorldLines) as Hparse
      by (vm_compute; reflexivity).
  exact (conj Hparse (starts_are_not_negative helloWorld Hparse)).
Defined.

Lemma split_single (s : jsstring) :
  terminatorFree s = true -> split LF s = [s].
Proof.
  unfold terminatorFree. induction s as [|c s IH]; [reflexivity|].
  cbn [forallb split]. intros H. apply andb_true_iff in H.
  destruct H as [Hc Hs]. rewrite (IH Hs).
  destruct (N.eqb c LF) eqn:E; [|reflexivity].
  apply N.eqb_eq in E. subst c. discriminate.
Qed.

Lemma add_zero_positive (y : number) :
  positiveOrZero y = true -> add (S754_zero false) y = y.
Proof. now destruct y as [[|]|[|]| |[|] m e]. Qed.

(** X21. In the first minute the start time is exactly what [parseFloat]
    returns for the seconds, the double nearest to SS.ff: for a text made
    of one line [[00:SS.ff]rest], the multiplication and the addition for
    the minutes change nothing. *)
Theorem first_minute_start_is_exact
        (r : LyricSearchResult) (s1 s2 f1 f2 : char) (rest : jsstring) :
  isDigit s1 = true -> isDigit s2 = true ->
  isDigit f1 = true -> isDigit f2 = true ->
  terminatorFree rest = true ->
  parseSyncedLyrics
    (withSynced r (str "[00:" ++ [s1; s2] ++ str "." ++ [f1; f2]
                     ++ str "]" ++ rest))
  = inr [ {| start := parseFloat ([s1; s2] ++ str "." ++ [f1; f2]);
             end_ := duration r;
             text := textOf rest |} ].
Proof.
  intros H3 H4 H5 H6 Hrest.
  change (str "[00:" ++ [s1; s2] ++ str "." ++ [f1; f2] ++ str "]" ++ rest)
    with (91 :: 48 :: 48 :: 58 :: s1 :: s2 :: 46 :: f1 :: f2 :: 93
             :: rest)%N.
  change ([s1; s2] ++ str "." ++ [f1; f2]) with [s1; s2; 46%N; f1; f2].
  assert (isDigit 48%N = true) as H0 by reflexivity.
  pose proof (@regexMatch_shape 48%N 48%N s1 s2 f1 f2 rest
                                H0 H0 H3 H4 H5 H6 Hrest) as Hm.
  rewrite parse_unfold. unfold physicalLines.
  cbn [withSynced syncedLyrics duration].
  rewrite split_single.
  - unfold recorded. cbn [flat_map].
    match goal with
    | |- context [regexMatch ?l] =>
        replace (regexMatch l)
          with (Some ([48%N; 48%N], [s1; s2; 46%N; f1; f2], rest))
          by (symmetry; exact Hm)
    end.
    cbn [app attachEnds StartingLine.start StartingLine.line].
    do 2 f_equal. f_equal.
    change (mul (Number_ [48%N; 48%N]) (ofZ 60)) with (S754_zero false).
    apply add_zero_positive.
    unfold parseFloat. cbn [beforeDot afterDot].
    rewrite (@digit_not_dot s1 H3), (@digit_not_dot s2 H4), N.eqb_refl.
    cbn [app List.length digitsValue fold_left].
    pose proof (digitVal_range _ H3). pose proof (digitVal_range _ H4).
    pose proof (digitVal_range _ H5). pose proof (digitVal_range _ H6).
    unfold digitVal in *.
    apply SFdiv_positive; [apply ofZ_positive; lia|reflexivity..|discriminate].
  - apply Lines.matched_terminator_free. unfold matching.
    match goal with
    | |- context [regexMatch ?l] =>
        replace (regexMatch l)
          with (Some ([48%N; 48%N], [s1; s2; 46%N; f1; f2], rest))
          by (symmetry; exact Hm)
    end.
    reflexivity.
Qed.

Lemma first_minute_start_is_exact_witness :
  isDigit 48%N = true /\ isDigit 49%N = true
  /\ isDigit 53%N = true /\ isDigit 48%N = true
  /\ terminatorFree (str "Hello") = true
  /\ parseSyncedLyrics
       (withSynced helloWorld
          (str "[00:" ++ [48; 49]%N ++ str "." ++ [53; 48]%N
             ++ str "]" ++ str "Hello"))
     = inr [ {| start := parseFloat ([48; 49]%N ++ str "." ++ [53; 48]%N);
                end_ := duration helloWorld;
                text := textOf (str "Hello") |} ].
Proof.
  assert (isDigit 48%N = true) as H0 by reflexivity.
  assert (isDigit 49%N = true) as H1 by reflexivity.
  assert (isDigit 53%N = true) as H5 by reflexivity.
  assert (terminatorFree (str "Hello") = true) as Hrest by reflexivity.
  exact (conj H0 (conj H1 (conj H5 (conj H0 (conj Hrest
           (first_minute_start_is_exact helloWorld 48%N 49%N 53%N 48%N
              (str "Hello") H0 H1 H5 H0 Hrest)))))).
Defined.

(** Past the first minute the sum is rounded once more: the line
    [[01:08.04]] starts at 68.03999999999999 (0x4051028F5C28F5C2), one
    step below the double nearest to 68.04. *)
Example later_minutes_round_twice :
  timestamps [str "[01:08.04]"]
  = [S754_finite false 4787889353848258 (-46)]
  /\ div (ofZ 6804) (ofZ 100) = S754_finite false 4787889353848259 (-46).
Proof. split; vm_compute; reflexivity. Qed.

End StartTimes.
